(** * Tigris core: key codec, primary-index metadata, key generator,
    secondary-index planner and reader.

  A shallow embedding of
    - package [keys]      (tableKey, SerializeToBytes, FromBinary),
    - package [metadata]  (PrimaryIndexSubspace),
    - package [database]  (keyGenerator, BuildSecondaryIndexKeys,
                           SecondaryIndexReaderImpl),
  together with models of the collaborators these packages call. *)

From Stdlib Require Import ZArith Lia List Strings.Byte Sorting.Permutation.
From stdpp Require Import gmap strings list fin_maps pretty.

Local Open Scope Z_scope.

(** ** Errors and fallible results *)

(** The error values of package [errors] the modelled code builds, plus
  [ErrForeign] for an error value that comes from a collaborator and is
  passed along as it is. *)
Inductive error : Type :=
| InvalidArgument (msg : string)
| Internal (msg : string)
| ErrNotFound
| ErrForeign (msg : string).

Definition is_invalid_argument (e : error) : bool :=
match e with InvalidArgument _ => true | _ => false end.

Definition is_internal (e : error) : bool :=
match e with Internal _ => true | _ => false end.

Inductive Result (A : Type) : Type :=
| Ok (a : A)
| Err (e : error).
Arguments Ok {A} a.
Arguments Err {A} e.

Definition bind {A B} (r : Result A) (k : A -> Result B) : Result B :=
match r with
| Ok a => k a
| Err e => Err e
end.

#[global] Instance Result_bind : MBind Result := fun A B k r => bind r k.
#[global] Instance Result_ret : MRet Result := fun A a => Ok a.

(** ** Bytes *)

Abbreviation bytes := (list byte).

Definition byte_to_Z (b : byte) : Z := Z.of_N (Byte.to_N b).

Definition byte_of_Z (z : Z) : byte :=
match Byte.of_N (Z.to_N (z mod 256)) with
| Some b => b
| None => x00
end.

Definition byte_eqb (a b : byte) : bool := Byte.eqb a b.

#[global] Instance byte_eq_dec : EqDecision byte.
Proof.
intros a b. destruct (Byte.eqb a b) eqn:E.
- left. now apply Byte.byte_dec_bl.
- right. intros Hab. apply Byte.byte_dec_lb in Hab. congruence.
Defined.

#[global] Instance byte_countable : Countable byte.
Proof.
refine (inj_countable Byte.to_N Byte.of_N _).
intros b. apply Byte.of_to_N.
Defined.

(** [bytes.HasPrefix] and the slice [key[len(prefix):]] in one pass. *)
Fixpoint strip_prefix (prefix key : bytes) : option bytes :=
match prefix, key with
| [], _ => Some key
| p :: ps, k :: ks => if byte_eqb p k then strip_prefix ps ks else None
| _ :: _, [] => None
end.

(** Big-endian: the low [n] bytes of [v], most significant first
  ([binary.BigEndian.PutUint64] followed by [scratch[8-n:]]). *)
Fixpoint be_encode (n : nat) (v : Z) : bytes :=
match n with
| O => []
| S n' => byte_of_Z (Z.shiftr v (8 * Z.of_nat n')) :: be_encode n' v
end.

Definition be_decode_from (acc : Z) (bs : bytes) : Z :=
fold_left (fun a b => 256 * a + byte_to_Z b) bs acc.

Definition be_decode (bs : bytes) : Z := be_decode_from 0 bs.

(** ** The ordered-tuple layer of the substrate *)

Module tuple.

(** Modelled from the spec: the tuple layer ([tuple.Tuple], [Pack],
    [Unpack]) belongs to the key-value substrate and is not part of the
    sources.  Section 4.1 gives the format: a one-byte type tag, then an
    order-preserving payload; integers big-endian in a length-tagged family,
    negatives complemented; strings and byte arrays null-terminated with
    0x00 escaped; floats as sign-flipped IEEE-754 bits.  The elements are
    the scalar values of section 3; a float is kept as its 64-bit
    pattern. *)
Inductive element : Type :=
| ENil
| EBytes (b : bytes)
| EString (s : bytes)
| EInt (i : Z)
| EFloat64 (bits : Z)
| EBool (b : bool)
| EUUID (u : bytes).

Definition Tuple : Type := list element.

#[global] Instance element_eq_dec : EqDecision element.
Proof. solve_decision. Defined.

Definition nilCode : byte := x00.
Definition bytesCode : byte := x01.
Definition stringCode : byte := x02.
Definition intZeroCode : Z := 20.    (* 0x14 *)
Definition doubleCode : byte := x21.
Definition falseCode : byte := x26.
Definition trueCode : byte := x27.
Definition uuidCode : byte := x30.

(** [sizeLimits[n] = 2^(8n) - 1], for [n] from 0 to 8. *)
Definition sizeLimit (n : nat) : Z := Z.shiftl 1 (8 * Z.of_nat n) - 1.

(** The least [n] with [sizeLimit n >= u], searched upwards from [n]
    for at most [fuel] steps (8 suffice for a 64-bit value). *)
Fixpoint bisectLeft_from (fuel n : nat) (u : Z) : nat :=
  match fuel with
  | O => n
  | S fuel' => if sizeLimit n <? u then bisectLeft_from fuel' (S n) u else n
  end.

Definition bisectLeft (u : Z) : nat := bisectLeft_from 8 0 u.

(** 0x00 inside a string becomes 0x00 0xFF. *)
Fixpoint escape (b : bytes) : bytes :=
  match b with
  | [] => []
  | c :: rest =>
      if byte_eqb c x00 then x00 :: xff :: escape rest else c :: escape rest
  end.

Definition encodeBytes (code : byte) (b : bytes) : bytes :=
  code :: escape b ++ [x00].

Definition encodeInt (i : Z) : bytes :=
  if i =? 0 then [byte_of_Z intZeroCode]
  else if 0 <? i then
    let n := bisectLeft i in
    byte_of_Z (intZeroCode + Z.of_nat n) :: be_encode n i
  else
    let n := bisectLeft (- i) in
    byte_of_Z (intZeroCode - Z.of_nat n) :: be_encode n (sizeLimit n + i).

(** Sign-flip of an IEEE-754 pattern: a negative number has all its bits
    flipped, a positive one only its sign bit.  [encode] tells the
    direction. *)
Definition adjustFloatBits (bits : Z) (encode : bool) : Z :=
  if Bool.eqb (Z.testbit bits 63) encode
  then Z.lxor bits (Z.ones 64)
  else Z.lxor bits (Z.shiftl 1 63).

Definition encodeDouble (bits : Z) : bytes :=
  doubleCode :: be_encode 8 (adjustFloatBits bits true).

Definition encodeElement (e : element) : bytes :=
  match e with
  | ENil => [nilCode]
  | EBytes b => encodeBytes bytesCode b
  | EString s => encodeBytes stringCode s
  | EInt i => encodeInt i
  | EFloat64 f => encodeDouble f
  | EBool b => [if b then trueCode else falseCode]
  | EUUID u => uuidCode :: u
  end.

Definition Pack (t : Tuple) : bytes := flat_map encodeElement t.

(** Reads an escaped string up to its terminator: the terminator is a
    0x00 that is not followed by 0xFF.  [None] when the input ends
    first. *)
Fixpoint unescape (b : bytes) : option (bytes * bytes) :=
  match b with
  | [] => None
  | c :: rest =>
      if byte_eqb c x00 then
        match rest with
        | c' :: rest' =>
            if byte_eqb c' xff then
              match unescape rest' with
              | Some (s, tl) => Some (x00 :: s, tl)
              | None => None
              end
            else Some ([], rest)
        | [] => Some ([], rest)
        end
      else
        match unescape rest with
        | Some (s, tl) => Some (c :: s, tl)
        | None => None
        end
  end.

Definition errTruncated : error := ErrForeign "insufficient bytes to decode tuple element".
Definition errUnknownTag : error := ErrForeign "unable to decode tuple element with unknown typecode".

(** Splits off [n] bytes, or fails on a short input. *)
Definition take_exact (n : nat) (b : bytes) : Result (bytes * bytes) :=
  if (n <=? length b)%nat then Ok (firstn n b, skipn n b) else Err errTruncated.

Definition decodeInt (code : Z) (rest : bytes) : Result (element * bytes) :=
  if code =? intZeroCode then Ok (EInt 0, rest)
  else
    let n := Z.to_nat (Z.abs (code - intZeroCode)) in
    '(payload, tl) ← take_exact n rest;
    let v := be_decode payload in
    if code <? intZeroCode then Ok (EInt (v - sizeLimit n), tl)
    else Ok (EInt v, tl).

(** One element off the front of [b] (which is not empty). *)
Definition decodeElement (b : bytes) : Result (element * bytes) :=
  match b with
  | [] => Err errTruncated
  | c :: rest =>
      let code := byte_to_Z c in
      if byte_eqb c nilCode then Ok (ENil, rest)
      else if byte_eqb c bytesCode then
        match unescape rest with
        | Some (s, tl) => Ok (EBytes s, tl)
        | None => Err errTruncated
        end
      else if byte_eqb c stringCode then
        match unescape rest with
        | Some (s, tl) => Ok (EString s, tl)
        | None => Err errTruncated
        end
      else if (12 <=? code) && (code <=? 28) then decodeInt code rest
      else if byte_eqb c doubleCode then
        '(payload, tl) ← take_exact 8 rest;
        Ok (EFloat64 (adjustFloatBits (be_decode payload) false), tl)
      else if byte_eqb c falseCode then Ok (EBool false, rest)
      else if byte_eqb c trueCode then Ok (EBool true, rest)
      else if byte_eqb c uuidCode then
        '(u, tl) ← take_exact 16 rest;
        Ok (EUUID u, tl)
      else Err errUnknownTag
  end.

(** The decoding loop [for i < len(b)]; every element takes at least one
    byte, so [length b] rounds are enough for any input. *)
Fixpoint decodeTuple (fuel : nat) (b : bytes) : Result Tuple :=
  match b with
  | [] => Ok []
  | _ :: _ =>
      match fuel with
      | O => Err errTruncated
      | S fuel' =>
          '(e, tl) ← decodeElement b;
          t ← decodeTuple fuel' tl;
          Ok (e :: t)
      end
  end.

Definition Unpack (b : bytes) : Result Tuple := decodeTuple (length b) b.

(** The values of the supported type set: an int64, a 64-bit float
    pattern, a 16-byte UUID; strings and byte arrays of any content. *)
Definition supported (e : element) : Prop :=
  match e with
  | EInt i => - 2 ^ 63 <= i < 2 ^ 63
  | EFloat64 f => 0 <= f < 2 ^ 64
  | EUUID u => length u = 16%nat
  | _ => True
  end.

End tuple.

(** ** Subspaces of the substrate *)

Module subspace.

(** Modelled from the spec: [subspace.FromBytes(table)] names the key
    range with prefix [table]; [Pack] writes the prefix verbatim followed
    by the packed tuple, [Unpack] strips the prefix, which must match
    exactly, and decodes the tail (section 4.1). *)
Definition Pack (rawPrefix : bytes) (t : tuple.Tuple) : bytes :=
  rawPrefix ++ tuple.Pack t.

Definition errNotInSubspace : error := ErrForeign "key is not in subspace".

Definition Unpack (rawPrefix : bytes) (key : bytes) : Result tuple.Tuple :=
  match strip_prefix rawPrefix key with
  | None => Err errNotInSubspace
  | Some tl => tuple.Unpack tl
  end.

End subspace.

(** ** Package keys *)

Module keys.

Record tableKey : Type := mkKey {
  table : bytes;
  indexParts : list tuple.element
}.

Definition NewKey (table : bytes) (indexParts : list tuple.element) : tableKey :=
  {| table := table; indexParts := indexParts |}.

Definition Table (p : tableKey) : bytes := table p.

Definition IndexParts (p : tableKey) : list tuple.element := indexParts p.

Definition SerializeToBytes (p : tableKey) : bytes :=
  if (length (indexParts p) =? 0)%nat then table p
  else subspace.Pack (table p) (indexParts p).

(** [bytes.Compare]: lexicographic order of byte strings; -1, 0 or +1. *)
Fixpoint Compare (a b : bytes) : Z :=
  match a, b with
  | [], [] => 0
  | [], _ :: _ => -1
  | _ :: _, [] => 1
  | x :: a', y :: b' =>
      if byte_to_Z x <? byte_to_Z y then -1
      else if byte_to_Z y <? byte_to_Z x then 1
      else Compare a' b'
  end.

(** CompareBytes compares the serialized form of keys. It returns 0 if
    p == input, -1 if p < input, and +1 if p > input. *)
Definition CompareBytes (p : tableKey) (input : bytes) : Z :=
  Compare (SerializeToBytes p) input.

Definition FromBinary (table : bytes) (fdbKey : bytes) : Result tableKey :=
  tp ← subspace.Unpack table fdbKey;
  Ok (NewKey table tp).

End keys.


(** ** The transaction facade *)

Module transaction.

(** Modelled from the spec: the [Tx] contract of section 4.2, of which the
    sources hold only the interface ([baseKV] in store/kv/base.go).  A
    transaction is its view of the store, keyed by serialized key, and the
    record of the substrate operations issued through it; once it has
    failed, every operation answers with its error. *)
Inductive TableData : Type := mkTableData {
  Ver : Z;                 (* int32 *)
  RawData : bytes;
  Encoding : Z;
  CreatedAt : option Z;
  UpdatedAt : option Z
}.

Inductive op : Type :=
| OpInsert (key : bytes)
| OpReplace (key : bytes) (isUpdate : bool)
| OpDelete (key : bytes)
| OpRead (key : bytes).

Record Tx : Type := mkTx {
  store : gmap bytes TableData;
  issued : list op;
  failed : option error    (* a transaction that was cancelled or timed out *)
}.

Definition ErrDuplicateKey : error := ErrForeign "duplicate key value".

Definition record (o : op) (tx : Tx) : Tx :=
  {| store := store tx; issued := issued tx ++ [o]; failed := failed tx |}.

Definition put (k : bytes) (d : TableData) (tx : Tx) : Tx :=
  {| store := <[k := d]> (store tx); issued := issued tx; failed := failed tx |}.

(** [insert]: fails if the key exists. *)
Definition Insert (key : keys.tableKey) (data : TableData) (tx : Tx)
  : Result unit * Tx :=
  let k := keys.SerializeToBytes key in
  let tx := record (OpInsert k) tx in
  match failed tx, store tx !! k with
  | Some e, _ => (Err e, tx)
  | None, Some _ => (Err ErrDuplicateKey, tx)
  | None, None => (Ok tt, put k data tx)
  end.

(** [replace]: overwrites; with [isUpdate] the key must exist. *)
Definition Replace (key : keys.tableKey) (data : TableData) (isUpdate : bool)
    (tx : Tx) : Result unit * Tx :=
  let k := keys.SerializeToBytes key in
  let tx := record (OpReplace k isUpdate) tx in
  match failed tx, store tx !! k, isUpdate with
  | Some e, _, _ => (Err e, tx)
  | None, None, true => (Err ErrNotFound, tx)
  | None, _, _ => (Ok tt, put k data tx)
  end.

(** [delete]: idempotent removal. *)
Definition Delete (key : keys.tableKey) (tx : Tx) : Result unit * Tx :=
  let k := keys.SerializeToBytes key in
  let tx := record (OpDelete k) tx in
  match failed tx with
  | Some e => (Err e, tx)
  | None =>
      (Ok tt, {| store := delete k (store tx); issued := issued tx;
                 failed := None |})
  end.

(** [read]: a point read; the iterator it returns holds the row or
    nothing. *)
Definition Read (key : keys.tableKey) (tx : Tx)
  : Result (option TableData) * Tx :=
  let k := keys.SerializeToBytes key in
  let tx := record (OpRead k) tx in
  match failed tx with
  | Some e => (Err e, tx)
  | None => (Ok (store tx !! k), tx)
  end.

End transaction.

(** ** Package metadata: the primary-index store *)

Module metadata.
Import transaction.

(** PrimaryIndexMetadata contains index wide metadata. *)
Record PrimaryIndexMetadata : Type := mkPrimaryIndexMetadata {
  ID : Z;                  (* uint32 *)
  Name : string
}.

Definition indexMetaValueVersion : Z := 1.

(** Modelled from the spec: [UInt32ToByte] and [ByteToUInt32] are helpers
    of the package that the sources do not hold; section 6 writes the
    coordinates as [u32-BE], section 4.3 decodes a legacy value as
    [big-endian-u32(rawData)], a value of exactly four raw bytes. *)
Definition UInt32ToByte (v : Z) : bytes := be_encode 4 v.

Definition ByteToUInt32 (b : bytes) : Z := be_decode (firstn 4 b).

Section PrimaryIndexSubspace.

(** The JSON codec (jsoniter) is a collaborator. *)
Variable Unmarshal : bytes -> Result PrimaryIndexMetadata.
Variable Marshal : option PrimaryIndexMetadata -> Result bytes.

(** The key constants of the package ([indexKey], [keyEnd],
    [keyDroppedEnd]) are declared outside the sources. *)
Variable indexKey keyEnd keyDroppedEnd : tuple.element.

(** The two fields of the embedded [metadataSubspace]. *)
Record PrimaryIndexSubspace : Type := mkPrimaryIndexSubspace {
  SubspaceName : bytes;
  KeyVersion : bytes
}.

Variable c : PrimaryIndexSubspace.

Definition getKey (nsID dbID collID : Z) (name : string) : keys.tableKey :=
  if String.eqb name "" then
    keys.NewKey (SubspaceName c)
      [tuple.EBytes (KeyVersion c); tuple.EBytes (UInt32ToByte nsID);
       tuple.EBytes (UInt32ToByte dbID); tuple.EBytes (UInt32ToByte collID);
       indexKey]
  else
    keys.NewKey (SubspaceName c)
      [tuple.EBytes (KeyVersion c); tuple.EBytes (UInt32ToByte nsID);
       tuple.EBytes (UInt32ToByte dbID); tuple.EBytes (UInt32ToByte collID);
       indexKey; tuple.EString (String.list_byte_of_string name); keyEnd].

(** [metadata **PrimaryIndexMetadata]: [None] is a nil argument, [Some None]
    points at a nil payload. *)
Definition validateArgs (nsID dbID collID : Z) (name : string)
    (metadata : option (option PrimaryIndexMetadata)) : option error :=
  if (nsID =? 0) || (dbID =? 0) || (collID =? 0) then
    Some (InvalidArgument "invalid id")
  else if String.eqb name "" then
    Some (InvalidArgument "empty index name")
  else
    match metadata with
    | Some None => Some (InvalidArgument "invalid nil payload")
    | _ => None
    end.

Definition decodeMetadata (_ : string) (payload : TableData)
  : Result PrimaryIndexMetadata :=
  if Ver payload =? 0 then
    Ok {| ID := ByteToUInt32 (RawData payload); Name := "" |}
  else
    match Unmarshal (RawData payload) with
    | Err _ => Err (Internal "failed to unmarshal collection metadata")
    | Ok metadata => Ok metadata
    end.

(** *** The operations of [metadataSubspace] *)

(** Modelled from the spec: [insertMetadata], [getPayload],
    [updateMetadata], [deleteMetadata], [softDeleteMetadata] and
    [listMetadata] are methods of [metadataSubspace], which the sources do
    not hold.  Sections 4.3 and 4.4: the arguments are validated before any
    operation; every insert and update writes a [TableData] with the current
    version; a soft delete rewrites the record under the dropped key. *)
Definition encodeMetadata (ver : Z) (metadata : option PrimaryIndexMetadata)
  : Result TableData :=
  raw ← Marshal metadata;
  Ok {| Ver := ver; RawData := raw; Encoding := 0;
        CreatedAt := None; UpdatedAt := None |}.

Definition insertMetadata (invalidArgs : option error) (key : keys.tableKey)
    (ver : Z) (metadata : option PrimaryIndexMetadata) (tx : Tx)
  : Result unit * Tx :=
  match invalidArgs with
  | Some e => (Err e, tx)
  | None =>
      match encodeMetadata ver metadata with
      | Err e => (Err e, tx)
      | Ok payload => Insert key payload tx
      end
  end.

Definition getPayload (invalidArgs : option error) (key : keys.tableKey)
    (tx : Tx) : Result (option TableData) * Tx :=
  match invalidArgs with
  | Some e => (Err e, tx)
  | None => Read key tx
  end.

Definition updateMetadata (invalidArgs : option error) (key : keys.tableKey)
    (ver : Z) (metadata : option PrimaryIndexMetadata) (tx : Tx)
  : Result unit * Tx :=
  match invalidArgs with
  | Some e => (Err e, tx)
  | None =>
      match encodeMetadata ver metadata with
      | Err e => (Err e, tx)
      | Ok payload => Replace key payload true tx
      end
  end.

Definition deleteMetadata (invalidArgs : option error) (key : keys.tableKey)
    (tx : Tx) : Result unit * Tx :=
  match invalidArgs with
  | Some e => (Err e, tx)
  | None => Delete key tx
  end.

Definition softDeleteMetadata (invalidArgs : option error)
    (oldKey newKey : keys.tableKey) (tx : Tx) : Result unit * Tx :=
  match invalidArgs with
  | Some e => (Err e, tx)
  | None =>
      match Read oldKey tx with
      | (Err e, tx) => (Err e, tx)
      | (Ok None, tx) => (Err ErrNotFound, tx)
      | (Ok (Some payload), tx) =>
          match Delete oldKey tx with
          | (Err e, tx) => (Err e, tx)
          | (Ok _, tx) => Replace newKey payload false tx
          end
      end
  end.

(** A row as [listMetadata] hands it to its visitor: whether the key ends
    in the dropped terminator, the name at [nameOffset], the value. *)
Record Row : Type := mkRow {
  rowDropped : bool;
  rowName : string;
  rowData : TableData
}.

(** Visits the scanned rows in key order and stops at the first error of
    the visitor; the scan itself may fail. *)
Definition listMetadata {S : Type} (scan : Result (list Row))
    (visit : S -> bool -> string -> TableData -> Result S) (init : S)
  : Result S :=
  rows ← scan;
  foldl (fun acc row =>
           s ← acc; visit s (rowDropped row) (rowName row) (rowData row))
        (Ok init) rows.

(** *** The operations of [PrimaryIndexSubspace] *)

Definition insert (nsID dbID collID : Z) (name : string)
    (metadata : option PrimaryIndexMetadata) (tx : Tx) : Result unit * Tx :=
  insertMetadata
    (validateArgs nsID dbID collID name (Some metadata))
    (getKey nsID dbID collID name)
    indexMetaValueVersion
    metadata tx.

Definition Get (nsID dbID collID : Z) (name : string) (tx : Tx)
  : Result PrimaryIndexMetadata * Tx :=
  match getPayload
          (validateArgs nsID dbID collID name None)
          (getKey nsID dbID collID name) tx with
  | (Err err, tx) => (Err err, tx)
  | (Ok None, tx) => (Err ErrNotFound, tx)
  | (Ok (Some payload), tx) => (decodeMetadata name payload, tx)
  end.

Definition Update (nsID dbID collID : Z) (name : string)
    (metadata : option PrimaryIndexMetadata) (tx : Tx) : Result unit * Tx :=
  updateMetadata
    (validateArgs nsID dbID collID name (Some metadata))
    (getKey nsID dbID collID name)
    indexMetaValueVersion
    metadata tx.

Definition delete (nsID dbID collID : Z) (name : string) (tx : Tx)
  : Result unit * Tx :=
  deleteMetadata
    (validateArgs nsID dbID collID name None)
    (getKey nsID dbID collID name) tx.

Definition softDelete (nsID dbID collID : Z) (name : string) (tx : Tx)
  : Result unit * Tx :=
  let newKey :=
    keys.NewKey (SubspaceName c)
      [tuple.EBytes (KeyVersion c); tuple.EBytes (UInt32ToByte nsID);
       tuple.EBytes (UInt32ToByte dbID); tuple.EBytes (UInt32ToByte collID);
       indexKey; tuple.EString (String.list_byte_of_string name); keyDroppedEnd] in
  softDeleteMetadata
    (validateArgs nsID dbID collID name None)
    (getKey nsID dbID collID name)
    newKey tx.

(** The two maps [list] fills while it visits the rows. *)
Record listed : Type := mkListed {
  indexes : gmap string PrimaryIndexMetadata;
  droppedIndexes : gmap string Z
}.

Definition list_visit (acc : listed) (dropped : bool) (name : string)
    (data : TableData) : Result listed :=
  m ← decodeMetadata name data;
  if dropped then
    Ok {| indexes := indexes acc;
          droppedIndexes := <[name := ID m]> (droppedIndexes acc) |}
  else
    Ok {| indexes := <[name := m]> (indexes acc);
          droppedIndexes := droppedIndexes acc |}.

Definition retrogression_error (droppedC : string) (droppedValue createdValue : Z)
  : error :=
  Internal ("retrogression found in indexes assigned value index ["
            +:+ droppedC +:+ "] droppedValue [" +:+ pretty droppedValue
            +:+ "] createdValue [" +:+ pretty createdValue +:+ "]").

(** The retrogression check, over the entries of [droppedIndexes] in the
    order the [range] statement yields them. *)
Fixpoint retrogression_check (entries : list (string * Z))
    (indexes : gmap string PrimaryIndexMetadata) : Result unit :=
  match entries with
  | [] => Ok tt
  | (droppedC, droppedValue) :: rest =>
      match indexes !! droppedC with
      | Some createdValue =>
          if ID createdValue <=? droppedValue then
            Err (retrogression_error droppedC droppedValue (ID createdValue))
          else retrogression_check rest indexes
      | None => retrogression_check rest indexes
      end
  end.

(** A [range] over a Go map yields its entries in an order of the runtime's
    choosing. *)
Variable rangeOrder : gmap string Z -> list (string * Z).

Definition list (scan : Result (list Row))
  : Result (gmap string PrimaryIndexMetadata) :=
  acc ← listMetadata scan list_visit
           {| indexes := ∅; droppedIndexes := ∅ |};
  _ ← retrogression_check (rangeOrder (droppedIndexes acc)) (indexes acc);
  Ok (indexes acc).

End PrimaryIndexSubspace.

End metadata.

(** ** A JSON codec for index metadata *)

Module json.
Import metadata.

(** The canonical JSON text of a [PrimaryIndexMetadata],
    [{"id":7,"name":"by_email"}], written and read back without white
    space.  It stands in for the JSON library wherever the operations of
    the store are run on concrete values. *)
Definition quote : byte := x22.

Definition idField : bytes := [x7b; quote; x69; x64; quote; x3a].
Definition nameField : bytes := [x2c; quote; x6e; x61; x6d; x65; quote; x3a; quote].
Definition closing : bytes := [quote; x7d].
Definition null : bytes := [x6e; x75; x6c; x6c].

Definition errSyntax : error := ErrForeign "readObjectStart: expect { or n".

Definition Marshal (metadata : option PrimaryIndexMetadata) : Result bytes :=
  match metadata with
  | None => Ok null
  | Some m =>
      Ok (idField ++ String.list_byte_of_string (pretty (ID m)) ++ nameField
          ++ String.list_byte_of_string (Name m) ++ closing)
  end.

Fixpoint readDigits (acc : Z) (b : bytes) : Z * bytes :=
  match b with
  | c :: rest =>
      let d := byte_to_Z c - 48 in
      if (0 <=? d) && (d <=? 9) then readDigits (10 * acc + d) rest
      else (acc, b)
  | [] => (acc, [])
  end.

Fixpoint readUntilQuote (b : bytes) : option (bytes * bytes) :=
  match b with
  | [] => None
  | c :: rest =>
      if byte_eqb c quote then Some ([], b)
      else
        match readUntilQuote rest with
        | Some (s, tl) => Some (c :: s, tl)
        | None => None
        end
  end.

Definition Unmarshal (data : bytes) : Result PrimaryIndexMetadata :=
  match strip_prefix idField data with
  | None => Err errSyntax
  | Some afterId =>
      let '(id, tl) := readDigits 0 afterId in
      match strip_prefix nameField tl with
      | None => Err errSyntax
      | Some afterName =>
          match readUntilQuote afterName with
          | None => Err errSyntax
          | Some (name, tl) =>
              if decide (tl = closing)
              then Ok {| ID := id; Name := String.string_of_list_byte name |}
              else Err errSyntax
          end
      end
  end.

End json.

(** ** Package schema *)

Module schema.

Inductive FieldType : Type :=
| UnknownType | NullType | BoolType | Int32Type | Int64Type | DoubleType
| StringType | ByteType | UUIDType | DateTimeType | ArrayType | ObjectType.

#[global] Instance FieldType_eq_dec : EqDecision FieldType.
Proof. solve_decision. Defined.

Inductive FieldState : Type := Active | Writing | Deleted.

#[global] Instance FieldState_eq_dec : EqDecision FieldState.
Proof. solve_decision. Defined.

Record QueryableField : Type := mkQueryableField {
  QFieldName : string;
  QDataType : FieldType;
  Indexed : bool;
  State : FieldState
}.

(** A field of a primary index. *)
Record Field : Type := mkField {
  FieldName : string;
  DataType : FieldType;
  AutoGenerate : bool
}.

Definition Type_ (f : Field) : FieldType := DataType f.
Definition IsAutoGenerated (f : Field) : bool := AutoGenerate f.

Record Index : Type := mkIndex {
  IndexName : string;
  Fields : list Field
}.

Record DefaultCollection : Type := mkDefaultCollection {
  EncodedName : bytes;
  EncodedTableIndexName : bytes;
  SecondaryIndexKeyword : string;
  QueryableFields : list QueryableField
}.

(** Modelled from the spec: [GetActiveIndexedFields] is a method of the
    collection that the sources do not hold; section 3: only the fields that
    are indexed and in state [active] take part in plan selection. *)
Definition GetActiveIndexedFields (coll : DefaultCollection)
  : list QueryableField :=
  filter (fun f => Indexed f = true /\ State f = Active) (QueryableFields coll).

End schema.

(** ** Package filter *)

Module filter.
Import schema.

Inductive QueryPlanType : Type := FULLRANGE | RANGE | EQUAL.

#[global] Instance QueryPlanType_eq_dec : EqDecision QueryPlanType.
Proof. solve_decision. Defined.

Inductive Comparison : Type := EQ | GT | GTE | LT | LTE.

#[global] Instance Comparison_eq_dec : EqDecision Comparison.
Proof. solve_decision. Defined.

(** A literal of a filter: its data type and what [AsInterface] gives. *)
Record Value : Type := mkValue {
  ValueType : FieldType;
  AsInterface : tuple.element
}.

#[global] Instance Value_eq_dec : EqDecision Value.
Proof. solve_decision. Defined.

(** A leaf filter: a comparison of one field with a literal. *)
Record Selector : Type := mkSelector {
  SelField : QueryableField;
  Matcher : Comparison;
  Literal : Value
}.

Record QueryPlan : Type := mkQueryPlan {
  QueryType : QueryPlanType;
  Keys : list keys.tableKey;
  PlanDataType : FieldType
}.

Section builders.

Variable encoder : list tuple.element -> Result keys.tableKey.
Variable buildIndexParts : string -> Value -> list tuple.element.

Definition SelectsWith (cmp : Comparison) (name : string) (sel : Selector)
  : bool :=
  bool_decide (Matcher sel = cmp) && String.eqb (QFieldName (SelField sel)) name.

(** Modelled from the spec: the equality builder ([NewSecondaryKeyEqBuilder]
    and its [Build]) is code of package filter that the sources do not hold.
    Section 4.6: it matches the filters [field == literal] whose field is
    indexed, and builds one candidate plan per indexed field that has an
    equality filter; each plan is [EQUAL] with one key per distinct
    literal. *)
Definition eqPlanOf (filters : list Selector) (f : QueryableField)
  : Result (list QueryPlan) :=
  let literals :=
    remove_dups (map Literal (List.filter (SelectsWith EQ (QFieldName f)) filters)) in
  match literals with
  | [] => Ok []
  | _ :: _ =>
      ks ← mapM (fun v => encoder (buildIndexParts (QFieldName f) v)) literals;
      Ok [{| QueryType := EQUAL; Keys := ks; PlanDataType := QDataType f |}]
  end.

Fixpoint eqPlans (filters : list Selector) (fields : list QueryableField)
  : Result (list QueryPlan) :=
  match fields with
  | [] => Ok []
  | f :: rest =>
      here ← eqPlanOf filters f;
      more ← eqPlans filters rest;
      Ok (here ++ more)
  end.

Definition SecondaryKeyEqBuilder_Build (filters : list Selector)
    (fields : list QueryableField) : Result (list QueryPlan) :=
  eqPlans filters fields.

End builders.

End filter.

(** ** Package database: the planner *)

Module planner.
Import schema filter.

Definition errEmptyFilter : error := InvalidArgument "Cannot index with an empty filter".
Definition errNoIndexableFields : error := InvalidArgument "No indexable fields".
Definition errNoQueryRange : error := InvalidArgument "Could not find a query range".
Definition errNoUsablePlan : error := InvalidArgument "Could not find a useuable query plan".

Definition indexedDataType (queryPlan : QueryPlan) : bool :=
  match PlanDataType queryPlan with
  | ByteType | UnknownType | ArrayType => false
  | _ => true
  end.

(** Modelled from the spec: [newKeyWithPrimaryKey] is a helper of the
    package that the sources do not hold; section 4.6 gives the parts of a
    secondary key: the index keyword, "kvs", then the index parts (field
    name, type order, literal), then the primary-key parts, none here. *)
Definition newKeyWithPrimaryKey (indexParts : list tuple.element)
    (table : bytes) (keyword kvs : string) : keys.tableKey :=
  keys.NewKey table
    (tuple.EString (String.list_byte_of_string keyword)
     :: tuple.EString (String.list_byte_of_string kvs) :: indexParts).

Section BuildSecondaryIndexKeys.

(** [value.ToSecondaryOrder] and [filter.SortQueryPlans] are declared
    outside the sources, and so are the two key builders; the planner is
    read against any of them. *)
Variable ToSecondaryOrder : FieldType -> Value -> Z.
Variable SortQueryPlans : list QueryPlan -> list QueryPlan.

Definition Builder : Type :=
  (list tuple.element -> Result keys.tableKey) ->
  (string -> Value -> list tuple.element) ->
  list Selector -> list QueryableField -> Result (list QueryPlan).

Variable eqKeyBuilder rangKeyBuilder : Builder.

(** The two closures [BuildSecondaryIndexKeys] hands to the builders. *)
Definition encoder (coll : DefaultCollection) (indexParts : list tuple.element)
  : Result keys.tableKey :=
  Ok (newKeyWithPrimaryKey indexParts (EncodedTableIndexName coll)
        (SecondaryIndexKeyword coll) "kvs").

Definition buildIndexParts (fieldName : string) (val : Value)
  : list tuple.element :=
  let typeOrder := ToSecondaryOrder (ValueType val) val in
  [tuple.EString (String.list_byte_of_string fieldName);
   tuple.EInt typeOrder; AsInterface val].

Definition BuildSecondaryIndexKeys (coll : DefaultCollection)
    (queryFilters : list Selector) : Result QueryPlan :=
  if (length queryFilters =? 0)%nat then Err errEmptyFilter
  else
    let indexeableFields := GetActiveIndexedFields coll in
    if (length indexeableFields =? 0)%nat then Err errNoIndexableFields
    else
      let fromEq :=
        match eqKeyBuilder (encoder coll) buildIndexParts queryFilters
                indexeableFields with
        | Ok eqPlan => List.find indexedDataType eqPlan
        | Err _ => None
        end in
      match fromEq with
      | Some plan => Ok plan
      | None =>
          match rangKeyBuilder (encoder coll) buildIndexParts queryFilters
                  indexeableFields with
          | Err err => Err err
          | Ok rangePlans =>
              if (length rangePlans =? 0)%nat then Err errNoQueryRange
              else
                match List.find indexedDataType (SortQueryPlans rangePlans) with
                | Some plan => Ok plan
                | None => Err errNoUsablePlan
                end
          end
      end.

End BuildSecondaryIndexKeys.

End planner.

(** ** Package database: the secondary-index reader *)

Module reader.
Import transaction.

Definition PrimaryKeyPos : nat := 6.

Record Row : Type := mkRow {
  Key : bytes;
  Data : option TableData
}.

(** Modelled from the spec: the [Iterator] the reader scans (built by
    [NewScanIterator] or [NewKeyIterator]) is declared outside the sources.
    Sections 4.2 and 5: an iterator is finite and forward-only, [Next]
    yields the next row or reports the end, and [Interrupted] tells an
    interruption from the end of the data.  Its state is what is still to
    come - rows, and possibly a failure that cuts the scan short - and the
    error it stopped on. *)
Inductive event : Type :=
| Hit (row : Row)
| Failure (e : error).

Record Iterator : Type := mkIterator {
  upcoming : list event;
  stopped : option error
}.

Definition Iterator_Interrupted (it : Iterator) : option error := stopped it.

Definition Iterator_Next (it : Iterator) : option Row * Iterator :=
  match stopped it with
  | Some _ => (None, it)
  | None =>
      match upcoming it with
      | [] => (None, it)
      | Hit row :: rest => (Some row, {| upcoming := rest; stopped := None |})
      | Failure e :: rest => (None, {| upcoming := rest; stopped := Some e |})
      end
  end.

Record SecondaryIndexReaderImpl : Type := mkReader {
  coll : schema.DefaultCollection;
  tx : Tx;
  err : option error;
  kvIter : Iterator
}.

(** What a call of [Next] comes to: it returns, with the row it wrote if
    it wrote one, or the slice expression [IndexParts()[PrimaryKeyPos:]]
    panics on a key of fewer parts. *)
Inductive outcome : Type :=
| Returned (more : bool) (row : option Row) (it : SecondaryIndexReaderImpl)
| Panicked.

Definition with_err (it : SecondaryIndexReaderImpl) (e : error)
  : SecondaryIndexReaderImpl :=
  {| coll := coll it; tx := tx it; err := Some e; kvIter := kvIter it |}.

Definition Next (it : SecondaryIndexReaderImpl) : outcome :=
  match err it with
  | Some _ => Returned false None it
  | None =>
      match Iterator_Interrupted (kvIter it) with
      | Some e => Returned false None (with_err it e)
      | None =>
          match Iterator_Next (kvIter it) with
          | (Some indexRow, kvIter') =>
              let it := {| coll := coll it; tx := tx it; err := err it;
                           kvIter := kvIter' |} in
              match keys.FromBinary (schema.EncodedTableIndexName (coll it))
                      (Key indexRow) with
              | Err e => Returned false None (with_err it e)
              | Ok indexKey =>
                  if (PrimaryKeyPos <=? length (keys.IndexParts indexKey))%nat
                  then
                    let pks := skipn PrimaryKeyPos (keys.IndexParts indexKey) in
                    let pkIndexParts :=
                      keys.NewKey (schema.EncodedName (coll it)) pks in
                    match Read pkIndexParts (tx it) with
                    | (Err e, tx') =>
                        Returned false None
                          {| coll := coll it; tx := tx'; err := Some e;
                             kvIter := kvIter it |}
                    | (Ok docIter, tx') =>
                        let it := {| coll := coll it; tx := tx'; err := err it;
                                     kvIter := kvIter it |} in
                        match docIter with
                        | Some data =>
                            Returned true
                              (Some {| Key := keys.SerializeToBytes pkIndexParts;
                                       Data := Some data |}) it
                        | None => Returned false None it
                        end
                    end
                  else Panicked
              end
          | (None, kvIter') =>
              Returned false None
                {| coll := coll it; tx := tx it; err := err it;
                   kvIter := kvIter' |}
          end
      end
  end.

Definition Interrupted (it : SecondaryIndexReaderImpl) : option error := err it.

(** The loop of a caller, [for it.Next(&row) { rows = append(rows, row) }]:
    it stops at the first [false].  Every call that returns [true] has
    taken a hit off the underlying iterator, so the loop ends within
    [fuel] rounds when [fuel] exceeds the number of upcoming events. *)
Fixpoint collect (fuel : nat) (it : SecondaryIndexReaderImpl)
  : list Row * option SecondaryIndexReaderImpl :=
  match fuel with
  | O => ([], Some it)
  | S fuel' =>
      match Next it with
      | Returned true (Some row) it' =>
          let '(rows, final) := collect fuel' it' in (row :: rows, final)
      | Returned _ _ it' => ([], Some it')
      | Panicked => ([], None)
      end
  end.

(** [n] calls of [Next] in a row: what each returned, and the reader
    they leave. *)
Fixpoint Next_n (n : nat) (it : SecondaryIndexReaderImpl)
  : option (list (bool * option Row) * SecondaryIndexReaderImpl) :=
  match n with
  | O => Some ([], it)
  | S n' =>
      match Next it with
      | Returned more row it' =>
          match Next_n n' it' with
          | Some (results, final) => Some ((more, row) :: results, final)
          | None => None
          end
      | Panicked => None
      end
  end.

End reader.

(** ** Sample data *)

Module sample.

(** A collection with an indexed [age : Int64], an indexed [blob : Byte]
    and a field [note] that is not indexed. *)
Definition people : schema.DefaultCollection :=
  {| schema.EncodedName := [x64];
     schema.EncodedTableIndexName := [x69];
     schema.SecondaryIndexKeyword := "skey";
     schema.QueryableFields :=
       [schema.mkQueryableField "age" schema.Int64Type true schema.Active;
        schema.mkQueryableField "blob" schema.ByteType true schema.Active;
        schema.mkQueryableField "note" schema.StringType false schema.Active] |}.

Definition age : schema.QueryableField :=
  schema.mkQueryableField "age" schema.Int64Type true schema.Active.

Definition blob : schema.QueryableField :=
  schema.mkQueryableField "blob" schema.ByteType true schema.Active.

Definition age_is_30 : filter.Selector :=
  filter.mkSelector age filter.EQ (filter.mkValue schema.Int64Type (tuple.EInt 30)).

Definition blob_is_x : filter.Selector :=
  filter.mkSelector blob filter.EQ
    (filter.mkValue schema.ByteType (tuple.EBytes [x78])).

Definition typeOrder (_ : schema.FieldType) (_ : filter.Value) : Z := 1.

(** A range builder that finds no range. *)
Definition noRange : planner.Builder := fun _ _ _ _ => Ok [].

(** The secondary-index row of the document with primary key [pk] and
    [age = a]. *)
Definition indexRow (a pk : Z) : reader.Row :=
  {| reader.Key :=
       keys.SerializeToBytes
         (keys.NewKey [x69]
            [tuple.EString [x73]; tuple.EString [x6b]; tuple.EString [x61];
             tuple.EInt 1; tuple.EInt a; tuple.ENil; tuple.EInt pk]);
     reader.Data := None |}.

Definition doc (n : Z) : transaction.TableData :=
  transaction.mkTableData 1 [byte_of_Z n] 0 None None.

Definition pkey (pk : Z) : bytes :=
  keys.SerializeToBytes (keys.NewKey [x64] [tuple.EInt pk]).

(** Two index hits; the document of the first is gone, the document of the
    second is there. *)
Definition scan : reader.SecondaryIndexReaderImpl :=
  {| reader.coll := people;
     reader.tx := {| transaction.store := {[ pkey 2 := doc 2 ]};
                     transaction.issued := [];
                     transaction.failed := None |};
     reader.err := None;
     reader.kvIter := {| reader.upcoming :=
                           [reader.Hit (indexRow 30 1); reader.Hit (indexRow 30 2)];
                         reader.stopped := None |} |}.

(** A reader over the same store with other events to come, on a
    transaction that may have failed. *)
Definition reader_on (events : list reader.event) (failed : option error)
  : reader.SecondaryIndexReaderImpl :=
  {| reader.coll := people;
     reader.tx := {| transaction.store := {[ pkey 2 := doc 2 ]};
                     transaction.issued := [];
                     transaction.failed := failed |};
     reader.err := None;
     reader.kvIter := {| reader.upcoming := events; reader.stopped := None |} |}.

(** An index row whose key has only three parts. *)
Definition shortRow : reader.Row :=
  {| reader.Key :=
       keys.SerializeToBytes
         (keys.NewKey [x69] [tuple.EString [x73]; tuple.EInt 1; tuple.EInt 2]);
     reader.Data := None |}.

(** An index row whose key is not under the index table. *)
Definition strayRow : reader.Row :=
  {| reader.Key := [x7a; x00]; reader.Data := None |}.

(** The primary-index store and an empty transaction. *)
Definition indexStore : metadata.PrimaryIndexSubspace :=
  {| metadata.SubspaceName := [x6d]; metadata.KeyVersion := [x01] |}.

Definition indexKey : tuple.element := tuple.EString [x69; x64; x78].
Definition keyEnd : tuple.element := tuple.EString [x65; x6e; x64].
Definition keyDroppedEnd : tuple.element := tuple.EString [x64; x72; x6f; x70].

Definition idle : transaction.Tx :=
  {| transaction.store := ∅; transaction.issued := [];
     transaction.failed := None |}.

Definition by_email : metadata.PrimaryIndexMetadata :=
  {| metadata.ID := 7; metadata.Name := "by_email" |}.

End sample.

(** ** Package database: the key generator *)

Module jsonparser.

(** The value types [jsonparser.Get] reports. *)
Inductive ValueType : Type :=
| NotExist | String | Number | Object | Array | Boolean | Null | Unknown.

#[global] Instance ValueType_eq_dec : EqDecision ValueType.
Proof. solve_decision. Defined.

End jsonparser.

Module keygen.
Import schema.

Definition error_message (e : error) : string :=
  match e with
  | InvalidArgument msg | Internal msg | ErrForeign msg => msg
  | ErrNotFound => "not found"
  end.

Definition quote : byte := x22.

Definition zeroIntStringSlice : bytes := String.list_byte_of_string "0".
Definition zeroUUIDStringSlice : bytes :=
  String.list_byte_of_string "00000000-0000-0000-0000-000000000000".
Definition zeroTimeStringSlice : bytes :=
  String.list_byte_of_string "0001-01-01T00:00:00Z".

(** Byte slices live in a heap of backing arrays; a slice is the address
    of its array, and [None] is the nil slice. *)
Definition addr : Type := nat.

Definition deref (heap : gmap addr bytes) (s : option addr) : bytes :=
  match s with
  | Some a => default [] (heap !! a)
  | None => []
  end.

Record keyGenerator : Type := mkKeyGenerator {
  document : option addr;
  keysForResp : bytes;
  index : Index;
  forceInsert : bool
}.

Definition newKeyGenerator (document : option addr) (index : Index)
  : keyGenerator :=
  {| document := document; keysForResp := []; index := index;
     forceInsert := false |}.

Definition getKeysForResp (k : keyGenerator) : bytes :=
  [x7b] ++ keysForResp k ++ [x7d].

Definition getJsonQuotedValue (fieldType : FieldType) (jsonVal : bytes)
  : bytes :=
  match fieldType with
  | StringType | UUIDType | ByteType | DateTimeType =>
      [quote] ++ jsonVal ++ [quote]
  | _ => jsonVal
  end.

(** isNull checks if the value is "zero" value of it's type. *)
Definition isNull (tp : FieldType) (val : bytes) : bool :=
  match tp with
  | Int32Type => bool_decide (val = zeroIntStringSlice)
  | Int64Type => bool_decide (val = zeroIntStringSlice)
  | UUIDType => bool_decide (val = zeroUUIDStringSlice)
  | DateTimeType => bool_decide (val = zeroTimeStringSlice)
  | StringType | ByteType => (length val =? 0)%nat
  | _ => false
  end.

Definition addKeyToResp (field : Field) (jsonVal : bytes) (k : keyGenerator)
  : keyGenerator :=
  let jsonVal := getJsonQuotedValue (Type_ field) jsonVal in
  let jsonKeyAndValue :=
    [quote] ++ String.list_byte_of_string (FieldName field) ++ [quote; x3a]
    ++ jsonVal in
  {| document := document k;
     keysForResp :=
       if (length (keysForResp k) =? 0)%nat then jsonKeyAndValue
       else keysForResp k ++ [x2c] ++ jsonKeyAndValue;
     index := index k;
     forceInsert := forceInsert k |}.

Section keyGenerator.

(** What the generator calls outside the sources: the JSON path library,
    the UUID source, the clock, the counter of the table (which goes through
    a transaction), base64, the value parser and the key encoder.  [env] is
    the state of the world they read and change. *)
Variable env : Type.
Variable jsonparser_Get :
  bytes -> string -> bytes * jsonparser.ValueType * option error.
Variable NewUUIDAsString : env -> bytes * env.
Variable NowRFC3339Nano : env -> bytes * env.
Variable NowUnixNano : env -> Z * env.
Variable GenerateCounter : bytes -> env -> Result Z * env.
Variable base64_EncodeToString : bytes -> bytes.
Variable NewValue : FieldType -> bytes -> Result tuple.element.
Variable EncodeKey :
  bytes -> Index -> list tuple.element -> Result keys.tableKey.

(** [jsonparser.Set] builds its result with [append] on the slice it is
    given: it may write into that slice's backing array and return a slice
    of the same array, or return a new array.  [Set_result] is the text it
    returns, [Set_inplace] whether the result shares the argument's array,
    [Set_residue] what it leaves in the argument's array when it does
    not. *)
Variable Set_result : bytes -> bytes -> string -> Result bytes.
Variable Set_inplace : bytes -> bytes -> string -> bool.
Variable Set_residue : bytes -> bytes -> string -> bytes.

Record world : Type := mkWorld {
  heap : gmap addr bytes;
  outside : env
}.

Definition jsonparser_Set (data : addr) (setValue : bytes) (key : string)
    (h : gmap addr bytes) : Result (option addr) * gmap addr bytes :=
  let text := default [] (h !! data) in
  match Set_result text setValue key with
  | Err e => (Err e, <[data := Set_residue text setValue key]> h)
  | Ok out =>
      if Set_inplace text setValue key then
        (Ok (Some data), <[data := out]> h)
      else
        let h := <[data := Set_residue text setValue key]> h in
        let fresh_array := fresh (dom h) in
        (Ok (Some fresh_array), <[fresh_array := out]> h)
  end.

Definition setKeyInDoc (field : Field) (jsonVal : bytes) (k : keyGenerator)
    (w : world) : Result unit * keyGenerator * world :=
  let jsonVal := getJsonQuotedValue (Type_ field) jsonVal in
  (* as we are mutating the document, do not change original document. *)
  let tmp := fresh (dom (heap w)) in
  let h := <[tmp := deref (heap w) (document k)]> (heap w) in
  match jsonparser_Set tmp jsonVal (FieldName field) h with
  | (Ok doc, h) =>
      (Ok tt,
       {| document := doc; keysForResp := keysForResp k; index := index k;
          forceInsert := forceInsert k |},
       {| heap := h; outside := outside w |})
  | (Err e, h) =>
      (Err e,
       {| document := None; keysForResp := keysForResp k; index := index k;
          forceInsert := forceInsert k |},
       {| heap := h; outside := outside w |})
  end.

(** get returns generated id for the supported primary key fields: the
    unquoted JSON value and the internal value. *)
Definition get (table : bytes) (field : Field) (w : world)
  : Result (bytes * tuple.element) * world :=
  match Type_ field with
  | StringType | UUIDType =>
      let '(val, o) := NewUUIDAsString (outside w) in
      (Ok (val, tuple.EString val), {| heap := heap w; outside := o |})
  | ByteType =>
      let '(val, o) := NewUUIDAsString (outside w) in
      (Ok (base64_EncodeToString val, tuple.EBytes val),
       {| heap := heap w; outside := o |})
  | DateTimeType =>
      let '(val, o) := NowRFC3339Nano (outside w) in
      (Ok (val, tuple.EString val), {| heap := heap w; outside := o |})
  | Int64Type =>
      let '(val, o) := NowUnixNano (outside w) in
      (Ok (String.list_byte_of_string (pretty val), tuple.EInt val),
       {| heap := heap w; outside := o |})
  | Int32Type =>
      match GenerateCounter table (outside w) with
      | (Err e, o) => (Err e, {| heap := heap w; outside := o |})
      | (Ok valueI32, o) =>
          (Ok (String.list_byte_of_string (pretty valueI32),
               tuple.EInt valueI32),
           {| heap := heap w; outside := o |})
      end
  | _ =>
      (Err (InvalidArgument "unsupported type found in auto-generator"), w)
  end.

Definition with_forceInsert (k : keyGenerator) : keyGenerator :=
  {| document := document k; keysForResp := keysForResp k; index := index k;
     forceInsert := true |}.

(** The loop of [generate] over the fields of the index. *)
Fixpoint generate_fields (fields : list Field) (table : bytes)
    (indexParts : list tuple.element) (k : keyGenerator) (w : world)
  : Result (list tuple.element) * keyGenerator * world :=
  match fields with
  | [] => (Ok indexParts, k, w)
  | field :: rest =>
      let '(jsonVal, dtp, err) :=
        jsonparser_Get (deref (heap w) (document k)) (FieldName field) in
      let autoGenerate :=
        IsAutoGenerated field
        && (bool_decide (dtp = jsonparser.NotExist)
            || (bool_decide (err = None)
                && (isNull (Type_ field) jsonVal
                    || bool_decide (dtp = jsonparser.Null)))) in
      match autoGenerate, err with
      | false, Some e =>
          (Err (InvalidArgument
                  ("missing index key column(s) '" +:+ FieldName field
                   +:+ "': " +:+ error_message e)), k, w)
      | true, _ =>
          match get table field w with
          | (Err e, w) => (Err e, k, w)
          | (Ok (jsonVal, v), w) =>
              match setKeyInDoc field jsonVal k w with
              | (Err e, k, w) => (Err e, k, w)
              | (Ok _, k, w) =>
                  let k :=
                    if bool_decide (Type_ field = Int64Type)
                       || bool_decide (Type_ field = DateTimeType)
                    then with_forceInsert k else k in
                  generate_fields rest table (indexParts ++ [v])
                    (addKeyToResp field jsonVal k) w
              end
          end
      | false, None =>
          match NewValue (Type_ field) jsonVal with
          | Err e => (Err e, k, w)
          | Ok v =>
              generate_fields rest table (indexParts ++ [v])
                (addKeyToResp field jsonVal k) w
          end
      end
  end.

Definition generate (table : bytes) (k : keyGenerator) (w : world)
  : Result keys.tableKey * keyGenerator * world :=
  match generate_fields (Fields (index k)) table [] k w with
  | (Ok indexParts, k, w) => (EncodeKey table (index k) indexParts, k, w)
  | (Err e, k, w) => (Err e, k, w)
  end.

End keyGenerator.

Arguments mkWorld {env} heap outside.
Arguments heap {env} w.
Arguments outside {env} w.
Arguments setKeyInDoc {env}.
Arguments get {env}.
Arguments generate_fields {env}.
Arguments generate {env}.

End keygen.

Module sample_keygen.
Import schema.

(** A world whose clock and counter are one number that every reading
    advances, with a path library that finds no field and sets a field by
    appending it. *)
Definition Get (_ : bytes) (_ : string)
  : bytes * jsonparser.ValueType * option error :=
  ([], jsonparser.NotExist, Some (ErrForeign "Key path not found")).

Definition tick (n : Z) : Z * Z := (n + 1, n + 1).

Definition uuid (n : Z) : bytes * Z := (repeat (byte_of_Z n) 36, n + 1).

Definition now (n : Z) : bytes * Z :=
  (String.list_byte_of_string (pretty n), n + 1).

Definition counter (_ : bytes) (n : Z) : Result Z * Z := (Ok (n + 1), n + 1).

Definition parse (_ : FieldType) (val : bytes) : Result tuple.element :=
  Ok (tuple.EBytes val).

Definition encode (table : bytes) (_ : Index) (parts : list tuple.element)
  : Result keys.tableKey := Ok (keys.NewKey table parts).

Definition set_append (data setValue : bytes) (key : string) : Result bytes :=
  Ok (data ++ String.list_byte_of_string key ++ setValue).

Definition by_id : Index :=
  {| IndexName := "pkey";
     Fields := [mkField "id" Int32Type true; mkField "ts" Int64Type true] |}.

Definition start : keygen.world Z :=
  {| keygen.heap := {[ 0%nat := [x7b; x7d] ]}; keygen.outside := 41 |}.

End sample_keygen.

(** * Theorems *)

(** ** Bytes and big-endian numbers *)

Lemma byte_eqb_eq a b : byte_eqb a b = true <-> a = b.
Proof.
  unfold byte_eqb. split; [apply Byte.byte_dec_bl | apply Byte.byte_dec_lb].
Qed.

Lemma byte_eqb_refl a : byte_eqb a a = true.
Proof. now apply byte_eqb_eq. Qed.

Lemma byte_eqb_neq a b : byte_eqb a b = false <-> a <> b.
Proof.
  rewrite <- byte_eqb_eq. destruct (byte_eqb a b); split; congruence.
Qed.

Lemma byte_to_Z_range b : 0 <= byte_to_Z b < 256.
Proof. unfold byte_to_Z. pose proof (Byte.to_N_bounded b). lia. Qed.

Lemma byte_to_of_Z z : byte_to_Z (byte_of_Z z) = z mod 256.
Proof.
  unfold byte_to_Z, byte_of_Z.
  assert (0 <= z mod 256 < 256) by (apply Z.mod_pos_bound; lia).
  destruct (Byte.of_N (Z.to_N (z mod 256))) eqn:E.
  - apply Byte.to_of_N in E. rewrite E. lia.
  - apply Byte.of_N_None_iff in E. lia.
Qed.

Lemma byte_of_to_Z b : byte_of_Z (byte_to_Z b) = b.
Proof.
  unfold byte_of_Z, byte_to_Z. pose proof (Byte.to_N_bounded b).
  rewrite Z.mod_small by lia. rewrite N2Z.id, Byte.of_to_N. reflexivity.
Qed.

Lemma strip_prefix_app p tl : strip_prefix p (p ++ tl) = Some tl.
Proof.
  induction p as [|c p IH]; simpl; [reflexivity|].
  now rewrite byte_eqb_refl.
Qed.

Lemma strip_prefix_Some p k tl : strip_prefix p k = Some tl -> k = p ++ tl.
Proof.
  revert k; induction p as [|c p IH]; intros [|d k]; simpl; try congruence.
  destruct (byte_eqb c d) eqn:E; [|discriminate].
  apply byte_eqb_eq in E. subst d. intros H. now rewrite (IH _ H).
Qed.

Lemma be_encode_length n v : length (be_encode n v) = n.
Proof. induction n; simpl; congruence. Qed.

Lemma be_decode_from_encode n v acc :
  be_decode_from acc (be_encode n v)
  = acc * 256 ^ Z.of_nat n + v mod 256 ^ Z.of_nat n.
Proof.
  revert acc. induction n as [|n IH]; intros acc.
  - simpl. rewrite Z.mod_1_r. lia.
  - cbn [be_encode]. unfold be_decode_from in *. cbn [fold_left].
    rewrite IH, byte_to_of_Z, Z.shiftr_div_pow2 by lia.
    replace (2 ^ (8 * Z.of_nat n)) with (256 ^ Z.of_nat n)
      by (rewrite Z.pow_mul_r by lia; reflexivity).
    rewrite Nat2Z.inj_succ, Z.pow_succ_r by lia.
    assert (0 < 256 ^ Z.of_nat n) by (apply Z.pow_pos_nonneg; lia).
    rewrite (Z.mul_comm 256 (256 ^ Z.of_nat n)), Z.rem_mul_r by lia.
    ring.
Qed.

Lemma be_decode_encode n v :
  0 <= v < 256 ^ Z.of_nat n -> be_decode (be_encode n v) = v.
Proof.
  intros H. unfold be_decode. rewrite be_decode_from_encode.
  rewrite Z.mod_small by lia. lia.
Qed.

(** ** The tuple layer decodes what it encodes *)

Module tuple_facts.
Import tuple.

Lemma sizeLimit_pow n : sizeLimit n = 256 ^ Z.of_nat n - 1.
Proof.
  unfold sizeLimit. rewrite Z.shiftl_1_l, Z.pow_mul_r by lia. reflexivity.
Qed.

(** [bisectLeft] finds a width of one to eight bytes that holds [u]. *)
Lemma bisectLeft_spec u :
  0 < u < 2 ^ 64 ->
  (1 <= bisectLeft u <= 8)%nat /\ u <= sizeLimit (bisectLeft u).
Proof.
  intros Hu. unfold bisectLeft. cbn [bisectLeft_from].
  destruct (Z.ltb_spec (sizeLimit 0) u) as [_|E];
    [|change (sizeLimit 0) with 0 in E; lia].
  do 7 (match goal with
        | |- context [sizeLimit ?n <? u] =>
            destruct (Z.ltb_spec (sizeLimit n) u) as [_|E];
            [|split; [lia | exact E]]
        end).
  destruct (Z.ltb_spec (sizeLimit 8) u) as [E|E]; [|split; [lia | exact E]].
  change (sizeLimit 8) with (2 ^ 64 - 1) in E. lia.
Qed.

Lemma take_exact_app n (a tl : bytes) :
  length a = n -> take_exact n (a ++ tl) = Ok (a, tl).
Proof.
  intros <-. unfold take_exact.
  rewrite length_app.
  destruct (Nat.leb_spec (length a) (length a + length tl)); [|lia].
  now rewrite take_app_length, drop_app_length.
Qed.

(** No type code is 0xFF, so a terminator is never mistaken for an
    escaped zero. *)
Definition no_ff_head (b : bytes) : Prop :=
  match b with
  | c :: _ => c <> xff
  | [] => True
  end.

Lemma unescape_escape s tl :
  no_ff_head tl -> unescape (escape s ++ x00 :: tl) = Some (s, tl).
Proof.
  intros Htl. induction s as [|c s IH]; simpl.
  - destruct tl as [|d tl]; [reflexivity|].
    simpl in Htl. apply byte_eqb_neq in Htl. now rewrite Htl.
  - destruct (byte_eqb c x00) eqn:E.
    + apply byte_eqb_eq in E. subst c. simpl. now rewrite IH.
    + simpl. now rewrite E, IH.
Qed.

Lemma decodeInt_width n code v tl :
  (1 <= n <= 8)%nat ->
  (code = intZeroCode + Z.of_nat n \/ code = intZeroCode - Z.of_nat n) ->
  decodeElement (byte_of_Z code :: be_encode n v ++ tl)
  = decodeInt code (be_encode n v ++ tl)
  /\ Z.to_nat (Z.abs (code - intZeroCode)) = n
  /\ (code =? intZeroCode) = false.
Proof.
  intros Hn Hcode. unfold intZeroCode in *.
  assert (Hc : 12 <= code <= 28) by lia.
  assert (Hne : code <> 20) by lia.
  split; [|split; [lia | now apply Z.eqb_neq]].
  unfold decodeElement.
  rewrite byte_to_of_Z, Z.mod_small by lia.
  assert (Hb : forall z, 0 <= z < 256 -> z <> code ->
                         byte_eqb (byte_of_Z code) (byte_of_Z z) = false).
  { intros z Hz Hzc. apply byte_eqb_neq. intros Heq.
    apply (f_equal byte_to_Z) in Heq.
    rewrite !byte_to_of_Z, !Z.mod_small in Heq by lia. congruence. }
  change nilCode with (byte_of_Z 0). change bytesCode with (byte_of_Z 1).
  change stringCode with (byte_of_Z 2).
  rewrite !Hb by lia.
  destruct (Z.leb_spec 12 code); [|lia].
  destruct (Z.leb_spec code 28); [|lia]. reflexivity.
Qed.

Lemma decodeInt_encodeInt i tl :
  - 2 ^ 63 <= i < 2 ^ 63 ->
  decodeElement (encodeInt i ++ tl) = Ok (EInt i, tl).
Proof.
  intros Hi. unfold encodeInt.
  destruct (Z.eqb_spec i 0) as [->|Hnz]; [reflexivity|].
  destruct (Z.ltb_spec 0 i) as [Hpos|Hneg].
  - destruct (bisectLeft_spec i) as [Hn Hle]; [lia|].
    rewrite sizeLimit_pow in Hle.
    set (n := bisectLeft i) in *. clearbody n. cbn [app].
    destruct (decodeInt_width n (intZeroCode + Z.of_nat n) i tl Hn)
      as (-> & Hw & Hz); [now left|].
    unfold decodeInt. rewrite Hz, Hw.
    rewrite take_exact_app by apply be_encode_length.
    cbn -[be_decode be_encode sizeLimit Z.ltb Z.sub Z.add].
    rewrite be_decode_encode by lia.
    destruct (Z.ltb_spec (intZeroCode + Z.of_nat n) intZeroCode); [lia|].
    reflexivity.
  - destruct (bisectLeft_spec (- i)) as [Hn Hle]; [lia|].
    set (n := bisectLeft (- i)) in *. clearbody n. cbn [app].
    destruct (decodeInt_width n (intZeroCode - Z.of_nat n) (sizeLimit n + i) tl Hn)
      as (-> & Hw & Hz); [now right|].
    unfold decodeInt. rewrite Hz, Hw.
    rewrite take_exact_app by apply be_encode_length.
    cbn -[be_decode be_encode sizeLimit Z.ltb Z.sub Z.add].
    rewrite be_decode_encode by (rewrite sizeLimit_pow in *; lia).
    destruct (Z.ltb_spec (intZeroCode - Z.of_nat n) intZeroCode); [|lia].
    f_equal. f_equal. f_equal. lia.
Qed.

Lemma lxor_range_64 a b :
  0 <= a < 2 ^ 64 -> 0 <= b < 2 ^ 64 -> 0 <= Z.lxor a b < 2 ^ 64.
Proof.
  intros Ha Hb.
  assert (Hnn : 0 <= Z.lxor a b) by (apply Z.lxor_nonneg; lia).
  split; [exact Hnn|].
  destruct (Z.eq_dec (Z.lxor a b) 0) as [->|Hnz]; [lia|].
  apply Z.log2_lt_pow2; [lia|].
  pose proof (Z.log2_lxor a b ltac:(lia) ltac:(lia)).
  assert (Z.log2 a < 64).
  { destruct (Z.eq_dec a 0) as [->|]; [simpl; lia | apply Z.log2_lt_pow2; lia]. }
  assert (Z.log2 b < 64).
  { destruct (Z.eq_dec b 0) as [->|]; [simpl; lia | apply Z.log2_lt_pow2; lia]. }
  lia.
Qed.

Lemma adjustFloatBits_range bits e :
  0 <= bits < 2 ^ 64 -> 0 <= adjustFloatBits bits e < 2 ^ 64.
Proof.
  intros H. unfold adjustFloatBits.
  destruct (Bool.eqb _ _); apply lxor_range_64; try exact H; vm_compute;
    split; congruence.
Qed.

(** Decoding undoes the sign-flip of encoding. *)
Lemma adjustFloatBits_inv bits :
  adjustFloatBits (adjustFloatBits bits true) false = bits.
Proof.
  unfold adjustFloatBits.
  destruct (Z.testbit bits 63) eqn:E; cbn [Bool.eqb].
  - rewrite Z.lxor_spec, E. change (Z.testbit (Z.ones 64) 63) with true.
    cbn [xorb Bool.eqb].
    now rewrite Z.lxor_assoc, Z.lxor_nilpotent, Z.lxor_0_r.
  - rewrite Z.lxor_spec, E. change (Z.testbit (Z.shiftl 1 63) 63) with true.
    cbn [xorb Bool.eqb].
    now rewrite Z.lxor_assoc, Z.lxor_nilpotent, Z.lxor_0_r.
Qed.

Lemma decodeElement_encodeElement e tl :
  supported e -> no_ff_head tl ->
  decodeElement (encodeElement e ++ tl) = Ok (e, tl).
Proof.
  intros Hs Htl. destruct e as [|b|s|i|f|b|u]; cbn [encodeElement supported] in *.
  - reflexivity.
  - unfold encodeBytes. cbn [app]. rewrite <- app_assoc. cbn [app].
    unfold decodeElement. cbn -[unescape]. now rewrite unescape_escape.
  - unfold encodeBytes. cbn [app]. rewrite <- app_assoc. cbn [app].
    unfold decodeElement. cbn -[unescape]. now rewrite unescape_escape.
  - now apply decodeInt_encodeInt.
  - unfold encodeDouble. cbn [app]. unfold decodeElement.
    cbn -[take_exact be_encode be_decode adjustFloatBits].
    rewrite take_exact_app by apply be_encode_length.
    cbn -[be_encode be_decode adjustFloatBits].
    rewrite be_decode_encode by (apply adjustFloatBits_range; exact Hs).
    now rewrite adjustFloatBits_inv.
  - destruct b; reflexivity.
  - cbn [app]. unfold decodeElement. cbn -[take_exact].
    now rewrite take_exact_app.
Qed.

Lemma bisectLeft_le u : (bisectLeft u <= 8)%nat.
Proof.
  unfold bisectLeft. cbn [bisectLeft_from].
  repeat match goal with
  | |- context [sizeLimit ?n <? u] => destruct (sizeLimit n <? u)
  end; lia.
Qed.

Lemma encodeElement_head e :
  exists c r, encodeElement e = c :: r /\ c <> xff.
Proof.
  destruct e as [|b|s|i|f|b|u]; cbn [encodeElement];
    try (eexists _, _; split; [reflexivity | discriminate]).
  - unfold encodeInt.
    destruct (i =? 0); [eexists _, _; split; [reflexivity | discriminate]|].
    destruct (0 <? i).
    + pose proof (bisectLeft_le i) as Hn. set (n := bisectLeft i) in *.
      clearbody n. eexists _, _; split; [reflexivity|].
      do 9 (destruct n as [|n]; [vm_compute; discriminate|]). lia.
    + pose proof (bisectLeft_le (- i)) as Hn. set (n := bisectLeft (- i)) in *.
      clearbody n. eexists _, _; split; [reflexivity|].
      do 9 (destruct n as [|n]; [vm_compute; discriminate|]). lia.
  - destruct b; eexists _, _; split; try reflexivity; discriminate.
Qed.

Lemma Pack_no_ff_head t : no_ff_head (Pack t).
Proof.
  destruct t as [|e t]; [exact I|].
  unfold Pack. cbn [flat_map].
  destruct (encodeElement_head e) as (c & r & -> & Hc). exact Hc.
Qed.

Lemma Pack_length t : (length t <= length (Pack t))%nat.
Proof.
  induction t as [|e t IH]; [reflexivity|].
  unfold Pack in *. cbn [flat_map]. rewrite length_app.
  destruct (encodeElement_head e) as (c & r & -> & _). simpl. lia.
Qed.

Lemma decodeTuple_Pack t fuel :
  Forall supported t -> (length t <= fuel)%nat ->
  decodeTuple fuel (Pack t) = Ok t.
Proof.
  intros Hs. revert fuel. induction Hs as [|e t He Ht IH]; intros fuel Hf.
  - destruct fuel; reflexivity.
  - destruct fuel as [|fuel]; [simpl in Hf; lia|].
    change (Pack (e :: t)) with (encodeElement e ++ Pack t).
    destruct (encodeElement_head e) as (c & r & Henc & _).
    assert (Hd := decodeElement_encodeElement e (Pack t) He (Pack_no_ff_head t)).
    rewrite Henc in *. cbn [app] in *. cbn [decodeTuple].
    rewrite Hd. cbn. rewrite IH by (simpl in Hf; lia). reflexivity.
Qed.

(** The tuple layer's round trip. *)
Lemma Unpack_Pack t : Forall supported t -> Unpack (Pack t) = Ok t.
Proof.
  intros Hs. unfold Unpack. apply decodeTuple_Pack; [exact Hs|].
  apply Pack_length.
Qed.

End tuple_facts.

(** ** Package keys *)

Lemma subspace_Unpack_Pack prefix t :
  Forall tuple.supported t ->
  subspace.Unpack prefix (subspace.Pack prefix t) = Ok t.
Proof.
  intros Hs. unfold subspace.Unpack, subspace.Pack.
  rewrite strip_prefix_app. now apply tuple_facts.Unpack_Pack.
Qed.

(** C1. Round trip of the key codec: for every key whose index parts are
    of the supported scalar types, [FromBinary], given the key's table and
    its serialized form, returns a key with the same table and exactly the
    same index parts. *)
Theorem FromBinary_SerializeToBytes (k : keys.tableKey) :
  Forall tuple.supported (keys.IndexParts k) ->
  exists k',
    keys.FromBinary (keys.Table k) (keys.SerializeToBytes k) = Ok k'
    /\ keys.IndexParts k' = keys.IndexParts k
    /\ keys.Table k' = keys.Table k.
Proof.
  intros Hs. destruct k as [table parts]. cbn in *.
  exists (keys.NewKey table parts). split; [|split; reflexivity].
  unfold keys.FromBinary, keys.SerializeToBytes. cbn [keys.indexParts keys.table].
  destruct parts as [|e parts].
  - cbn [length Nat.eqb]. unfold subspace.Unpack.
    rewrite <- (app_nil_r table) at 2. rewrite strip_prefix_app. reflexivity.
  - cbn [length Nat.eqb]. now rewrite subspace_Unpack_Pack.
Qed.

Lemma FromBinary_SerializeToBytes_witness :
  exists k',
    keys.FromBinary [x74; x31]
      (keys.SerializeToBytes
         (keys.NewKey [x74; x31]
            [tuple.EString [x69; x64; x78]; tuple.EInt (-300);
             tuple.EBytes [x00; xff]; tuple.EFloat64 (2 ^ 63 + 1);
             tuple.EUUID (repeat x07 16); tuple.ENil]))
    = Ok k'
    /\ keys.IndexParts k'
       = [tuple.EString [x69; x64; x78]; tuple.EInt (-300);
          tuple.EBytes [x00; xff]; tuple.EFloat64 (2 ^ 63 + 1);
          tuple.EUUID (repeat x07 16); tuple.ENil]
    /\ keys.Table k' = [x74; x31].
Proof.
  apply (FromBinary_SerializeToBytes
           (keys.NewKey [x74; x31]
              [tuple.EString [x69; x64; x78]; tuple.EInt (-300);
               tuple.EBytes [x00; xff]; tuple.EFloat64 (2 ^ 63 + 1);
               tuple.EUUID (repeat x07 16); tuple.ENil])).
  cbn [keys.IndexParts keys.NewKey keys.indexParts].
  repeat constructor; cbn; lia.
Defined.

(** C6. A key built with no index parts serializes to exactly its table
    bytes: nothing is appended and nothing is changed. *)
Theorem SerializeToBytes_empty_parts (table : bytes) :
  keys.SerializeToBytes (keys.NewKey table []) = table.
Proof. reflexivity. Qed.

(** ** Package metadata *)

Module metadata_facts.
Import transaction.

Lemma ByteToUInt32_four (a b c d : byte) (tl : bytes) :
  metadata.ByteToUInt32 (a :: b :: c :: d :: tl)
  = byte_to_Z a * 2 ^ 24 + byte_to_Z b * 2 ^ 16 + byte_to_Z c * 2 ^ 8
    + byte_to_Z d.
Proof.
  unfold metadata.ByteToUInt32, be_decode, be_decode_from.
  cbn [firstn fold_left]. rewrite firstn_O. cbn [fold_left].
  change (2 ^ 24) with 16777216. change (2 ^ 16) with 65536.
  change (2 ^ 8) with 256. lia.
Qed.

Lemma ByteToUInt32_UInt32ToByte v :
  0 <= v < 2 ^ 32 -> metadata.ByteToUInt32 (metadata.UInt32ToByte v) = v.
Proof.
  intros Hv. unfold metadata.ByteToUInt32, metadata.UInt32ToByte.
  rewrite <- (be_encode_length 4 v) at 1. rewrite firstn_all.
  apply be_decode_encode. change (256 ^ Z.of_nat 4) with (2 ^ 32). exact Hv.
Qed.

Lemma validateArgs_None nsID dbID collID name md :
  metadata.validateArgs nsID dbID collID name md = None <->
  nsID <> 0 /\ dbID <> 0 /\ collID <> 0 /\ name <> ""%string /\ md <> Some None.
Proof.
  unfold metadata.validateArgs.
  destruct (Z.eqb_spec nsID 0), (Z.eqb_spec dbID 0), (Z.eqb_spec collID 0);
    cbn [orb]; try (split; [discriminate | tauto]).
  destruct (String.eqb_spec name ""); [split; [discriminate | tauto]|].
  destruct md as [[m|]|]; split; try discriminate; try tauto;
    intros; repeat split; auto; discriminate.
Qed.

Lemma validateArgs_invalid nsID dbID collID name md :
  nsID = 0 \/ dbID = 0 \/ collID = 0 \/ name = ""%string \/ md = Some None ->
  exists msg,
    metadata.validateArgs nsID dbID collID name md = Some (InvalidArgument msg).
Proof.
  intros H. unfold metadata.validateArgs.
  destruct ((nsID =? 0) || (dbID =? 0) || (collID =? 0)) eqn:Eid; [eauto|].
  destruct (String.eqb_spec name ""); [eauto|].
  destruct md as [[m|]|]; eauto; exfalso;
    apply orb_false_elim in Eid as [Eid Ec];
    apply orb_false_elim in Eid as [En Ed];
    destruct H as [H|[H|[H|[H|H]]]]; try discriminate; try contradiction; lia.
Qed.

(** What [validateArgs] rejects is rejected as an invalid argument. *)
Lemma validateArgs_error_kind nsID dbID collID name md e :
  metadata.validateArgs nsID dbID collID name md = Some e ->
  is_invalid_argument e = true.
Proof.
  unfold metadata.validateArgs.
  destruct ((nsID =? 0) || (dbID =? 0) || (collID =? 0)); [now intros [= <-]|].
  destruct (String.eqb name ""); [now intros [= <-]|].
  destruct md as [[m|]|]; try discriminate. now intros [= <-].
Qed.

Lemma retrogression_check_spec entries
    (idx : gmap string metadata.PrimaryIndexMetadata) :
  match metadata.retrogression_check entries idx with
  | Ok _ =>
      forall name d m,
        (name, d) ∈ entries -> idx !! name = Some m -> d < metadata.ID m
  | Err e =>
      exists name d m,
        e = metadata.retrogression_error name d (metadata.ID m)
        /\ (name, d) ∈ entries /\ idx !! name = Some m /\ metadata.ID m <= d
  end.
Proof.
  induction entries as [|[n v] rest IH]; cbn [metadata.retrogression_check].
  - intros name d m H. inversion H.
  - destruct (idx !! n) as [created|] eqn:En.
    + destruct (Z.leb_spec (metadata.ID created) v) as [Hle|Hlt].
      * exists n, v, created. repeat split; auto. constructor.
      * destruct (metadata.retrogression_check rest idx).
        -- intros name d m Hin Hm. apply elem_of_cons in Hin as [[= -> ->]|Hin].
           ++ rewrite En in Hm. injection Hm as <-. exact Hlt.
           ++ eauto.
        -- destruct IH as (name & d & m & ? & ? & ? & ?).
           exists name, d, m. repeat split; auto. now constructor.
    + destruct (metadata.retrogression_check rest idx).
      * intros name d m Hin Hm. apply elem_of_cons in Hin as [[= -> ->]|Hin].
        -- congruence.
        -- eauto.
      * destruct IH as (name & d & m & ? & ? & ? & ?).
        exists name, d, m. repeat split; auto. now constructor.
Qed.

End metadata_facts.

(** C2. The retrogression check of [list]: once the rows have been folded
    into the maps of active and dropped indexes, [list] returns an Internal
    error exactly when some name is in both maps with the dropped id greater
    than or equal to the active record's id, whatever the order in which the
    dropped map is ranged over; otherwise it returns the map of active
    indexes. *)
Theorem list_retrogression_check
    (Unmarshal : bytes -> Result metadata.PrimaryIndexMetadata)
    (rangeOrder : gmap string Z -> list (string * Z))
    (scan : Result (list metadata.Row)) (acc : metadata.listed) :
  (forall m, rangeOrder m ≡ₚ map_to_list m) ->
  metadata.listMetadata scan (metadata.list_visit Unmarshal)
    {| metadata.indexes := ∅; metadata.droppedIndexes := ∅ |} = Ok acc ->
  let retrogression :=
    exists name d m,
      metadata.droppedIndexes acc !! name = Some d
      /\ metadata.indexes acc !! name = Some m
      /\ metadata.ID m <= d in
  ((exists msg, metadata.list Unmarshal rangeOrder scan = Err (Internal msg))
   <-> retrogression)
  /\ (~ retrogression ->
      metadata.list Unmarshal rangeOrder scan = Ok (metadata.indexes acc)).
Proof.
  intros Hperm Hacc retro. unfold metadata.list. rewrite Hacc. cbn.
  pose proof (metadata_facts.retrogression_check_spec
                (rangeOrder (metadata.droppedIndexes acc))
                (metadata.indexes acc)) as Hspec.
  assert (Hin : forall name d,
             (name, d) ∈ rangeOrder (metadata.droppedIndexes acc)
             <-> metadata.droppedIndexes acc !! name = Some d).
  { intros name d. rewrite (Hperm _). apply elem_of_map_to_list. }
  destruct (metadata.retrogression_check _ _) as [[]|e]; cbn.
  - assert (Hno : ~ retro).
    { intros (name & d & m & Hd & Hm & Hle). apply Hin in Hd.
      specialize (Hspec _ _ _ Hd Hm). lia. }
    split; [|reflexivity]. split; [intros [msg Hmsg]; discriminate | tauto].
  - destruct Hspec as (name & d & m & -> & Hd & Hm & Hle). apply Hin in Hd.
    assert (Hyes : retro) by (exists name, d, m; auto).
    split; [|tauto]. split; [auto|]. intros _. eexists. reflexivity.
Qed.

Lemma list_retrogression_check_witness :
  let scan :=
    Ok [metadata.mkRow true "x"
          (transaction.mkTableData 0 (metadata.UInt32ToByte 5) 0 None None);
        metadata.mkRow false "x"
          (transaction.mkTableData 0 (metadata.UInt32ToByte 4) 0 None None)] in
  exists msg,
    metadata.list json.Unmarshal map_to_list scan = Err (Internal msg).
Proof.
  intros scan.
  refine (proj2 (proj1 (list_retrogression_check json.Unmarshal map_to_list scan
            {| metadata.indexes := {[ "x"%string := metadata.mkPrimaryIndexMetadata 4 "" ]};
               metadata.droppedIndexes := {[ "x"%string := 5 ]} |} _ _)) _).
  - intros m. reflexivity.
  - vm_compute. reflexivity.
  - exists "x"%string, 5, (metadata.mkPrimaryIndexMetadata 4 "").
    cbn [metadata.droppedIndexes metadata.indexes metadata.ID].
    rewrite !lookup_singleton_eq. repeat split; lia.
Defined.

(** C7. Decoding by version: a payload of version 0 is a legacy value and
    decodes, whatever the JSON decoder would say of it, to a record whose id
    is the big-endian uint32 reading of the raw bytes; a payload of version
    1 or more is JSON-decoded, and a failure of the JSON decoder becomes an
    Internal error. *)
Theorem decodeMetadata_by_version
    (Unmarshal : bytes -> Result metadata.PrimaryIndexMetadata)
    (name : string) (payload : transaction.TableData) :
  (transaction.Ver payload = 0 ->
   metadata.decodeMetadata Unmarshal name payload
   = Ok {| metadata.ID := metadata.ByteToUInt32 (transaction.RawData payload);
           metadata.Name := "" |}
   /\ forall a b c d : byte,
        transaction.RawData payload = [a; b; c; d] ->
        metadata.ByteToUInt32 (transaction.RawData payload)
        = byte_to_Z a * 2 ^ 24 + byte_to_Z b * 2 ^ 16 + byte_to_Z c * 2 ^ 8
          + byte_to_Z d)
  /\ (1 <= transaction.Ver payload ->
      metadata.decodeMetadata Unmarshal name payload
      = match Unmarshal (transaction.RawData payload) with
        | Ok m => Ok m
        | Err _ => Err (Internal "failed to unmarshal collection metadata")
        end).
Proof.
  unfold metadata.decodeMetadata. split.
  - intros ->. cbn [Z.eqb]. split; [reflexivity|].
    intros a b c d ->. apply metadata_facts.ByteToUInt32_four.
  - intros Hver. destruct (Z.eqb_spec (transaction.Ver payload) 0); [lia|].
    reflexivity.
Qed.

Lemma decodeMetadata_by_version_witness :
  metadata.decodeMetadata json.Unmarshal "by_email"
    (transaction.mkTableData 0 [x00; x00; x01; x07] 0 None None)
  = Ok (metadata.mkPrimaryIndexMetadata 263 "")
  /\ metadata.decodeMetadata json.Unmarshal "by_email"
       (transaction.mkTableData 1 (json.idField ++ [x37] ++ json.nameField
                                   ++ [x62; x79] ++ json.closing) 0 None None)
     = Ok (metadata.mkPrimaryIndexMetadata 7 "by")
  /\ metadata.decodeMetadata json.Unmarshal "by_email"
       (transaction.mkTableData 2 [x00; x00; x00; x07] 0 None None)
     = Err (Internal "failed to unmarshal collection metadata").
Proof.
  split; [|split].
  - exact (proj1 (proj1 (decodeMetadata_by_version json.Unmarshal "by_email"
             (transaction.mkTableData 0 [x00; x00; x01; x07] 0 None None))
             eq_refl)).
  - refine (proj2 (decodeMetadata_by_version json.Unmarshal "by_email"
             (transaction.mkTableData 1 _ 0 None None)) _).
    cbn. lia.
  - refine (proj2 (decodeMetadata_by_version json.Unmarshal "by_email"
             (transaction.mkTableData 2 [x00; x00; x00; x07] 0 None None)) _).
    cbn. lia.
Defined.

(** C8. Validation comes first: [insert], [Get], [Update], [delete] and
    [softDelete] answer with an InvalidArgument error when one of the three
    ids is zero or the name is empty, [insert] and [Update] also when the
    payload is nil, and the transaction is left as it was: nothing is read
    or written and no operation is issued to the substrate. *)
Theorem invalid_arguments_rejected
    (Unmarshal : bytes -> Result metadata.PrimaryIndexMetadata)
    (Marshal : option metadata.PrimaryIndexMetadata -> Result bytes)
    (indexKey keyEnd keyDroppedEnd : tuple.element)
    (c : metadata.PrimaryIndexSubspace)
    (nsID dbID collID : Z) (name : string)
    (md : option metadata.PrimaryIndexMetadata) (tx : transaction.Tx) :
  (nsID = 0 \/ dbID = 0 \/ collID = 0 \/ name = ""%string \/ md = None ->
   (exists msg,
      metadata.insert Marshal indexKey keyEnd c nsID dbID collID name md tx
      = (Err (InvalidArgument msg), tx))
   /\ (exists msg,
         metadata.Update Marshal indexKey keyEnd c nsID dbID collID name md tx
         = (Err (InvalidArgument msg), tx)))
  /\ (nsID = 0 \/ dbID = 0 \/ collID = 0 \/ name = ""%string ->
      (exists msg,
         metadata.Get Unmarshal indexKey keyEnd c nsID dbID collID name tx
         = (Err (InvalidArgument msg), tx))
      /\ (exists msg,
            metadata.delete indexKey keyEnd c nsID dbID collID name tx
            = (Err (InvalidArgument msg), tx))
      /\ (exists msg,
            metadata.softDelete indexKey keyEnd keyDroppedEnd c
              nsID dbID collID name tx
            = (Err (InvalidArgument msg), tx))).
Proof.
  split.
  - intros H.
    destruct (metadata_facts.validateArgs_invalid nsID dbID collID name (Some md))
      as [msg Hmsg].
    { destruct H as [H|[H|[H|[H|H]]]]; subst; tauto. }
    unfold metadata.insert, metadata.Update, metadata.insertMetadata,
      metadata.updateMetadata.
    rewrite Hmsg. split; eexists; reflexivity.
  - intros H.
    destruct (metadata_facts.validateArgs_invalid nsID dbID collID name None)
      as [msg Hmsg]; [tauto|].
    unfold metadata.Get, metadata.delete, metadata.softDelete,
      metadata.getPayload, metadata.deleteMetadata, metadata.softDeleteMetadata.
    rewrite Hmsg. repeat split; eexists; reflexivity.
Qed.

Lemma invalid_arguments_rejected_witness :
  (exists msg,
     metadata.insert json.Marshal sample.indexKey sample.keyEnd
       sample.indexStore 0 2 3 "by_email" (Some sample.by_email) sample.idle
     = (Err (InvalidArgument msg), sample.idle))
  /\ (exists msg,
        metadata.Get json.Unmarshal sample.indexKey sample.keyEnd
          sample.indexStore 1 2 3 "" sample.idle
        = (Err (InvalidArgument msg), sample.idle)).
Proof.
  split.
  - exact (proj1 (proj1 (invalid_arguments_rejected json.Unmarshal json.Marshal
             sample.indexKey sample.keyEnd sample.keyDroppedEnd
             sample.indexStore 0 2 3 "by_email" (Some sample.by_email)
             sample.idle) (or_introl eq_refl))).
  - exact (proj1 (proj2 (invalid_arguments_rejected json.Unmarshal json.Marshal
             sample.indexKey sample.keyEnd sample.keyDroppedEnd
             sample.indexStore 1 2 3 "" None sample.idle)
             (or_intror (or_intror (or_intror eq_refl))))).
Defined.

(** ** The planner *)

Module planner_facts.
Import schema filter planner.

Lemma mapM_Ok {A B} (g : A -> B) (l : list A) :
  mapM (fun a => Ok (g a)) l = Ok (map g l).
Proof.
  induction l as [|a l IH]; [reflexivity|].
  cbn [mapM map]. rewrite IH. reflexivity.
Qed.

Lemma length_eqb_0 {A} (l : list A) :
  (length l =? 0)%nat = true <-> l = [].
Proof. destruct l; cbn; split; congruence. Qed.

Section eq_builder.

Variable g : list tuple.element -> keys.tableKey.
Variable buildIndexParts : string -> Value -> list tuple.element.

Let encoder := fun parts : list tuple.element => Ok (g parts).

(** With an encoder that cannot fail, the equality builder gives, for a
    field, no plan or one [EQUAL] plan of the field's data type; it gives
    one when an equality filter names the field. *)
Lemma eqPlanOf_total filters f :
  exists l,
    eqPlanOf encoder buildIndexParts filters f = Ok l
    /\ Forall (fun p => QueryType p = EQUAL /\ PlanDataType p = QDataType f) l
    /\ ((exists sel, In sel filters
                     /\ SelectsWith EQ (QFieldName f) sel = true) ->
        l <> []).
Proof.
  unfold eqPlanOf.
  set (sels := List.filter (SelectsWith EQ (QFieldName f)) filters).
  destruct (remove_dups (map Literal sels)) as [|v vs] eqn:E.
  - exists []. split; [reflexivity|]. split; [constructor|].
    intros (sel & Hin & Hsel). exfalso.
    assert (Hs : In sel sels) by (apply filter_In; auto).
    assert (Hl : Literal sel ∈ remove_dups (map Literal sels)).
    { apply elem_of_remove_dups, list_elem_of_In, in_map, Hs. }
    rewrite E in Hl. inversion Hl.
  - unfold encoder. rewrite mapM_Ok. eexists. split; [reflexivity|].
    split; [repeat constructor | discriminate].
Qed.

Lemma eqPlans_total filters fields :
  exists l,
    eqPlans encoder buildIndexParts filters fields = Ok l
    /\ Forall (fun p => QueryType p = EQUAL) l
    /\ (forall f sel,
          In f fields -> In sel filters ->
          SelectsWith EQ (QFieldName f) sel = true ->
          exists p, In p l /\ PlanDataType p = QDataType f).
Proof.
  induction fields as [|f0 fields IH].
  - exists []. repeat split; [constructor|]. intros f sel [].
  - destruct IH as (more & Hmore & Hall & Hex).
    destruct (eqPlanOf_total filters f0) as (here & Hhere & Hh & Hne).
    exists (here ++ more). cbn [eqPlans]. rewrite Hhere, Hmore.
    split; [reflexivity|]. split.
    + apply Forall_app. split; [|exact Hall].
      eapply Forall_impl; [exact Hh|]. now intros p [? _].
    + intros f sel [<-|Hf] Hsel Hm.
      * destruct here as [|p here]; [exfalso; apply Hne; eauto|].
        exists p. split; [now left|].
        now apply Forall_cons in Hh as [[_ ?] _].
      * destruct (Hex f sel Hf Hsel Hm) as (p & Hp & Ht).
        exists p. split; [apply in_or_app; now right | exact Ht].
Qed.

End eq_builder.

Definition no_indexable_plan (r : Result (list QueryPlan)) : Prop :=
  forall plans, r = Ok plans -> Forall (fun p => indexedDataType p = false) plans.

Lemma find_indexed_None plans :
  Forall (fun p => indexedDataType p = false) plans ->
  List.find indexedDataType plans = None.
Proof.
  induction 1 as [|p plans Hp _ IH]; [reflexivity|].
  cbn [List.find]. now rewrite Hp.
Qed.

End planner_facts.

(** C3. The planner prefers equality: when the filter list holds an
    equality filter on an active indexed field whose data type is neither
    Byte nor Unknown nor Array, [BuildSecondaryIndexKeys] returns a plan, and
    its query type is [EQUAL], whatever the range builder would have
    found. *)
Theorem BuildSecondaryIndexKeys_prefers_EQUAL
    (ToSecondaryOrder : schema.FieldType -> filter.Value -> Z)
    (SortQueryPlans : list filter.QueryPlan -> list filter.QueryPlan)
    (rangKeyBuilder : planner.Builder)
    (coll : schema.DefaultCollection) (queryFilters : list filter.Selector)
    (f : schema.QueryableField) (sel : filter.Selector) :
  In f (schema.GetActiveIndexedFields coll) ->
  In sel queryFilters ->
  filter.Matcher sel = filter.EQ ->
  schema.QFieldName (filter.SelField sel) = schema.QFieldName f ->
  schema.QDataType f <> schema.ByteType ->
  schema.QDataType f <> schema.UnknownType ->
  schema.QDataType f <> schema.ArrayType ->
  exists plan,
    planner.BuildSecondaryIndexKeys ToSecondaryOrder SortQueryPlans
      filter.SecondaryKeyEqBuilder_Build rangKeyBuilder coll queryFilters
    = Ok plan
    /\ filter.QueryType plan = filter.EQUAL.
Proof.
  intros Hf Hsel Heq Hname Hb Hu Ha.
  unfold planner.BuildSecondaryIndexKeys.
  destruct queryFilters as [|q qs]; [destruct Hsel|]. cbn [length Nat.eqb].
  destruct (schema.GetActiveIndexedFields coll) as [|f0 fs] eqn:Ef;
    [destruct Hf|]. cbn [length Nat.eqb].
  unfold filter.SecondaryKeyEqBuilder_Build.
  destruct (planner_facts.eqPlans_total
              (fun parts =>
                 planner.newKeyWithPrimaryKey parts
                   (schema.EncodedTableIndexName coll)
                   (schema.SecondaryIndexKeyword coll) "kvs")
              (planner.buildIndexParts ToSecondaryOrder) (q :: qs) (f0 :: fs))
    as (plans & Hplans & Hall & Hex).
  change (filter.eqPlans (planner.encoder coll)
            (planner.buildIndexParts ToSecondaryOrder) (q :: qs) (f0 :: fs)
          = Ok plans) in Hplans.
  rewrite Hplans.
  assert (Hm : filter.SelectsWith filter.EQ (schema.QFieldName f) sel = true).
  { unfold filter.SelectsWith. rewrite Heq, Hname, String.eqb_refl.
    now rewrite bool_decide_eq_true_2. }
  destruct (Hex f sel Hf Hsel Hm) as (p & Hp & Ht).
  destruct (List.find planner.indexedDataType plans) as [plan|] eqn:Efind.
  - exists plan. split; [reflexivity|].
    apply find_some in Efind as [Hin _].
    rewrite Forall_forall in Hall. apply Hall. now apply list_elem_of_In.
  - exfalso. pose proof (find_none _ _ Efind p Hp) as Hnone.
    unfold planner.indexedDataType in Hnone. rewrite Ht in Hnone.
    destruct (schema.QDataType f); congruence.
Qed.


Lemma BuildSecondaryIndexKeys_prefers_EQUAL_witness :
  exists plan,
    planner.BuildSecondaryIndexKeys sample.typeOrder id
      filter.SecondaryKeyEqBuilder_Build sample.noRange sample.people
      [sample.blob_is_x; sample.age_is_30]
    = Ok plan
    /\ filter.QueryType plan = filter.EQUAL.
Proof.
  apply (BuildSecondaryIndexKeys_prefers_EQUAL sample.typeOrder id
           sample.noRange sample.people [sample.blob_is_x; sample.age_is_30]
           sample.age sample.age_is_30).
  - left. reflexivity.
  - right. left. reflexivity.
  - reflexivity.
  - reflexivity.
  - discriminate.
  - discriminate.
  - discriminate.
Defined.



(** ** The secondary-index reader *)

Module reader_facts.
Import transaction reader.

(** The conditions under which a call of [Next] reaches the point read of a
    hit and finds no document there. *)
Record absent_primary_row (it : SecondaryIndexReaderImpl) (hit : Row)
    (rest : list event) (indexKey : keys.tableKey) : Prop := {
  no_error : err it = None;
  not_stopped : stopped (kvIter it) = None;
  next_hit : upcoming (kvIter it) = Hit hit :: rest;
  key_decodes :
    keys.FromBinary (schema.EncodedTableIndexName (coll it)) (Key hit)
    = Ok indexKey;
  key_long_enough : (PrimaryKeyPos <= length (keys.IndexParts indexKey))%nat;
  tx_alive : failed (tx it) = None;
  row_absent :
    store (tx it)
      !! keys.SerializeToBytes
           (keys.NewKey (schema.EncodedName (coll it))
              (skipn PrimaryKeyPos (keys.IndexParts indexKey)))
    = None
}.

Lemma Next_latched it e :
  err it = Some e -> Next it = Returned false None it.
Proof. intros H. unfold Next. now rewrite H. Qed.

End reader_facts.

(** C4, as the code has it. When the primary row of a secondary-index hit
    is absent, [Next] returns false for that call: it writes no row, latches
    no error, has consumed the hit and issued the one point read, and leaves
    the rest of the scan to a later call. [Next] does not itself go on to the
    next hit. *)
Theorem Next_absent_primary_row
    (it : reader.SecondaryIndexReaderImpl) (hit : reader.Row)
    (rest : list reader.event) (indexKey : keys.tableKey) :
  reader_facts.absent_primary_row it hit rest indexKey ->
  exists it',
    reader.Next it = reader.Returned false None it'
    /\ reader.Interrupted it' = None
    /\ reader.upcoming (reader.kvIter it') = rest
    /\ reader.stopped (reader.kvIter it') = None
    /\ transaction.store (reader.tx it') = transaction.store (reader.tx it)
    /\ transaction.issued (reader.tx it')
       = transaction.issued (reader.tx it)
         ++ [transaction.OpRead
               (keys.SerializeToBytes
                  (keys.NewKey (schema.EncodedName (reader.coll it))
                     (skipn reader.PrimaryKeyPos (keys.IndexParts indexKey))))].
Proof.
  intros [Herr Hstop Hnext Hkey Hlen Halive Habsent].
  unfold reader.Next, reader.Iterator_Interrupted, reader.Iterator_Next.
  rewrite Herr, Hstop, Hnext. cbn [reader.coll reader.tx reader.err reader.kvIter].
  rewrite Hkey.
  destruct (Nat.leb_spec reader.PrimaryKeyPos (length (keys.IndexParts indexKey)))
    as [_|Hlt]; [|lia].
  unfold transaction.Read, transaction.record.
  cbn [transaction.failed transaction.store transaction.issued].
  rewrite Halive, Habsent.
  eexists. split; [reflexivity|]. cbn. repeat split; assumption.
Qed.

Lemma Next_absent_primary_row_witness :
  exists it',
    reader.Next sample.scan = reader.Returned false None it'
    /\ reader.Interrupted it' = None
    /\ reader.upcoming (reader.kvIter it') = [reader.Hit (sample.indexRow 30 2)]
    /\ reader.stopped (reader.kvIter it') = None
    /\ transaction.store (reader.tx it') = transaction.store (reader.tx sample.scan)
    /\ transaction.issued (reader.tx it') = [] ++ [transaction.OpRead (sample.pkey 1)].
Proof.
  apply (Next_absent_primary_row sample.scan (sample.indexRow 30 1)
           [reader.Hit (sample.indexRow 30 2)]
           (keys.NewKey [x69]
              [tuple.EString [x73]; tuple.EString [x6b]; tuple.EString [x61];
               tuple.EInt 1; tuple.EInt 30; tuple.ENil; tuple.EInt 1])).
  constructor; try reflexivity.
  unfold reader.PrimaryKeyPos. cbn [keys.IndexParts keys.NewKey keys.indexParts length].
  lia.
Defined.

(** C4, as stated, fails: of two hits, the first without a primary row
    and the second with one, [Next] does not return the second row - it
    returns false with no error latched - and a caller that loops until
    [Next] returns false collects no row at all, although the document of
    the second hit is in the store. *)
Lemma Next_does_not_skip_absent_row :
  (exists it',
      reader.Next sample.scan = reader.Returned false None it'
      /\ reader.Interrupted it' = None)
  /\ fst (reader.collect 3 sample.scan) = []
  /\ transaction.store (reader.tx sample.scan) !! sample.pkey 2
     = Some (sample.doc 2)
  /\ ~ (exists row it', reader.Next sample.scan = reader.Returned true (Some row) it').
Proof.
  split; [|split; [|split]].
  - eexists. split; reflexivity.
  - reflexivity.
  - reflexivity.
  - intros (row & it' & H).
    assert (Hn : exists it1,
               reader.Next sample.scan = reader.Returned false None it1)
      by (eexists; reflexivity).
    destruct Hn as [it1 Hn]. rewrite Hn in H. discriminate H.
Qed.

(** C10. Once the reader has recorded an error, every later call of [Next]
    returns false and writes no row, and leaves the reader as it is - the
    underlying iterator is not advanced and no read is issued to the
    transaction - so [Interrupted] keeps returning that same error. *)
Theorem Next_after_error (it : reader.SecondaryIndexReaderImpl) (e : error)
    (n : nat) :
  reader.err it = Some e ->
  reader.Next_n n it = Some (repeat (false, None) n, it)
  /\ reader.Interrupted it = Some e.
Proof.
  intros H. split; [|exact H].
  induction n as [|n IH]; [reflexivity|].
  cbn [reader.Next_n repeat]. rewrite (reader_facts.Next_latched it e H), IH.
  reflexivity.
Qed.

Lemma Next_after_error_witness :
  reader.Next_n 3 (reader.with_err sample.scan (Internal "scan interrupted"))
  = Some (repeat (false, None) 3,
          reader.with_err sample.scan (Internal "scan interrupted"))
  /\ reader.Interrupted
       (reader.with_err sample.scan (Internal "scan interrupted"))
     = Some (Internal "scan interrupted").
Proof.
  apply (Next_after_error
           (reader.with_err sample.scan (Internal "scan interrupted"))
           (Internal "scan interrupted") 3).
  reflexivity.
Defined.

(** ** The key generator *)

Module keygen_facts.
Import schema keygen.

Section frame.

Variable env : Type.
Variable jsonparser_Get :
  bytes -> string -> bytes * jsonparser.ValueType * option error.
Variable NewUUIDAsString : env -> bytes * env.
Variable NowRFC3339Nano : env -> bytes * env.
Variable NowUnixNano : env -> Z * env.
Variable GenerateCounter : bytes -> env -> Result Z * env.
Variable base64_EncodeToString : bytes -> bytes.
Variable NewValue : FieldType -> bytes -> Result tuple.element.
Variable EncodeKey :
  bytes -> Index -> list tuple.element -> Result keys.tableKey.
Variable Set_result : bytes -> bytes -> string -> Result bytes.
Variable Set_inplace : bytes -> bytes -> string -> bool.
Variable Set_residue : bytes -> bytes -> string -> bytes.

(** The arrays of [h0] are still there in [w] with the contents they had,
    and the generator's document is the slice it was given or an array that
    [h0] did not have. *)
Definition frame (h0 : gmap addr bytes) (given : option addr)
    (k : keyGenerator) (w : world env) : Prop :=
  (forall a d, h0 !! a = Some d -> heap w !! a = Some d)
  /\ (document k = given
      \/ forall a, document k = Some a -> h0 !! a = None).

Lemma fresh_not_in (h0 h : gmap addr bytes) :
  (forall a d, h0 !! a = Some d -> h !! a = Some d) ->
  h0 !! fresh (dom h) = None.
Proof.
  intros Hsub. destruct (h0 !! fresh (dom h)) as [d|] eqn:E; [|reflexivity].
  exfalso. apply (is_fresh (dom h)). apply elem_of_dom. eauto.
Qed.

Lemma insert_fresh_keeps (h0 h : gmap addr bytes) (a : addr) (v : bytes) :
  (forall a d, h0 !! a = Some d -> h !! a = Some d) ->
  h0 !! a = None ->
  forall b d, h0 !! b = Some d -> <[a := v]> h !! b = Some d.
Proof.
  intros Hsub Ha b d Hb. rewrite lookup_insert_ne; [eauto|].
  intros ->. congruence.
Qed.

Lemma jsonparser_Set_frame (h0 h : gmap addr bytes) data setValue key r
    (h' : gmap addr bytes) :
  (forall a d, h0 !! a = Some d -> h !! a = Some d) ->
  h0 !! data = None ->
  jsonparser_Set Set_result Set_inplace Set_residue data setValue key h
  = (r, h') ->
  (forall a d, h0 !! a = Some d -> h' !! a = Some d)
  /\ (forall a, r = Ok (Some a) -> h0 !! a = None).
Proof.
  intros Hsub Hdata. unfold jsonparser_Set.
  destruct (Set_result _ _ _) as [out|e].
  - destruct (Set_inplace _ _ _).
    + intros [= <- <-]. split.
      * now apply insert_fresh_keeps.
      * now intros a [= <-].
    + intros [= <- <-].
      assert (Hkeep : forall a d, h0 !! a = Some d ->
                <[data := Set_residue (default [] (h !! data)) setValue key]> h
                  !! a = Some d)
        by now apply insert_fresh_keeps.
      split.
      * apply insert_fresh_keeps; [exact Hkeep|]. now apply fresh_not_in.
      * intros a [= <-]. now apply fresh_not_in.
  - intros [= <- <-]. split; [now apply insert_fresh_keeps | discriminate].
Qed.

Lemma setKeyInDoc_frame (h0 : gmap addr bytes) given field jsonVal k w r k' w' :
  frame h0 given k w ->
  setKeyInDoc Set_result Set_inplace Set_residue field jsonVal k w
  = (r, k', w') ->
  frame h0 given k' w'.
Proof.
  intros [Hsub _]. unfold setKeyInDoc.
  destruct (jsonparser_Set _ _ _ _ _ _ _) as [r0 h'] eqn:Eset.
  apply (jsonparser_Set_frame h0) in Eset as [Hkeep Hnew].
  - destruct r0 as [doc|e]; intros [= <- <- <-]; split; cbn; try exact Hkeep.
    + right. intros a ->. now apply Hnew.
    + right. discriminate.
  - apply insert_fresh_keeps; [exact Hsub|]. now apply fresh_not_in.
  - now apply fresh_not_in.
Qed.

Lemma get_heap table field w r w' :
  get NewUUIDAsString NowRFC3339Nano NowUnixNano GenerateCounter
    base64_EncodeToString table field w = (r, w') ->
  heap w' = heap w.
Proof.
  unfold get.
  destruct (Type_ field);
    repeat match goal with
    | |- context [let '(_, _) := ?x in _] => destruct x
    | |- context [match ?x with (_, _) => _ end] => destruct x
    | |- context [match ?x with Ok _ => _ | Err _ => _ end] => destruct x
    end; now intros [= <- <-].
Qed.

Lemma addKeyToResp_document field jsonVal k :
  document (addKeyToResp field jsonVal k) = document k.
Proof. reflexivity. Qed.

Lemma generate_fields_frame (h0 : gmap addr bytes) given fields table parts
    k w r k' w' :
  frame h0 given k w ->
  generate_fields jsonparser_Get NewUUIDAsString NowRFC3339Nano NowUnixNano
    GenerateCounter base64_EncodeToString NewValue Set_result Set_inplace
    Set_residue fields table parts k w = (r, k', w') ->
  frame h0 given k' w'.
Proof.
  revert parts k w. induction fields as [|field rest IH]; intros parts k w Hfr.
  - now intros [= <- <- <-].
  - cbn [generate_fields].
    destruct (jsonparser_Get _ _) as [[jsonVal dtp] err].
    set (autoGenerate := IsAutoGenerated field && _).
    destruct autoGenerate.
    + destruct (get _ _ _ _ _ _ _ _) as [[[jv v]|e] w1] eqn:Eget.
      * apply get_heap in Eget.
        assert (Hfr1 : frame h0 given k w1).
        { destruct Hfr as [Hsub Hdoc]. split; [|exact Hdoc].
          rewrite Eget. exact Hsub. }
        destruct (setKeyInDoc _ _ _ _ _ _ _) as [[[u|e] k2] w2] eqn:Eset.
        -- apply (setKeyInDoc_frame h0 given) in Eset; [|exact Hfr1].
           apply IH. destruct Eset as [Hsub Hdoc]. split; [exact Hsub|].
           destruct (bool_decide (Type_ field = Int64Type)
                     || bool_decide (Type_ field = DateTimeType)); exact Hdoc.
        -- intros [= <- <- <-].
           now apply (setKeyInDoc_frame h0 given) in Eset.
      * intros [= <- <- <-]. apply get_heap in Eget.
        destruct Hfr as [Hsub Hdoc]. split; [|exact Hdoc].
        rewrite Eget. exact Hsub.
    + destruct err as [e|]; [now intros [= <- <- <-]|].
      destruct (NewValue _ _) as [v|e]; [|now intros [= <- <- <-]].
      apply IH. exact Hfr.
Qed.

End frame.

End keygen_facts.

(** C9. The generator does not touch the slice it is given: after
    [generate], whatever it generated and whether it failed, the array of the
    document passed to [newKeyGenerator] holds the bytes it held, and the
    document the generator now holds is that very slice or an array that did
    not exist before - the copy the generated values were written to. *)
Theorem generate_keeps_input
    (env : Type)
    (jsonparser_Get :
       bytes -> string -> bytes * jsonparser.ValueType * option error)
    (NewUUIDAsString : env -> bytes * env)
    (NowRFC3339Nano : env -> bytes * env)
    (NowUnixNano : env -> Z * env)
    (GenerateCounter : bytes -> env -> Result Z * env)
    (base64_EncodeToString : bytes -> bytes)
    (NewValue : schema.FieldType -> bytes -> Result tuple.element)
    (EncodeKey :
       bytes -> schema.Index -> list tuple.element -> Result keys.tableKey)
    (Set_result : bytes -> bytes -> string -> Result bytes)
    (Set_inplace : bytes -> bytes -> string -> bool)
    (Set_residue : bytes -> bytes -> string -> bytes)
    (table : bytes) (index : schema.Index) (w : keygen.world env)
    (input : keygen.addr) (text : bytes)
    (r : Result keys.tableKey) (k' : keygen.keyGenerator)
    (w' : keygen.world env) :
  keygen.heap w !! input = Some text ->
  keygen.generate jsonparser_Get NewUUIDAsString NowRFC3339Nano NowUnixNano
    GenerateCounter base64_EncodeToString NewValue EncodeKey Set_result
    Set_inplace Set_residue table
    (keygen.newKeyGenerator (Some input) index) w = (r, k', w') ->
  keygen.heap w' !! input = Some text
  /\ (keygen.document k' = Some input
      \/ forall a, keygen.document k' = Some a -> keygen.heap w !! a = None).
Proof.
  intros Hin. unfold keygen.generate.
  destruct (keygen.generate_fields _ _ _ _ _ _ _ _ _ _ _ _ _ _ _)
    as [[r0 k0] w0] eqn:Egen.
  apply (keygen_facts.generate_fields_frame env jsonparser_Get NewUUIDAsString
           NowRFC3339Nano NowUnixNano GenerateCounter base64_EncodeToString
           NewValue Set_result Set_inplace Set_residue
           (keygen.heap w) (Some input)) in Egen.
  - destruct Egen as [Hsub Hdoc].
    destruct r0 as [parts|e]; intros [= <- <- <-]; (split; [eauto | exact Hdoc]).
  - split; [auto | left; reflexivity].
Qed.

Lemma generate_keeps_input_witness :
  let run :=
    keygen.generate sample_keygen.Get sample_keygen.uuid sample_keygen.now
      sample_keygen.tick sample_keygen.counter id sample_keygen.parse
      sample_keygen.encode sample_keygen.set_append (fun _ _ _ => true)
      (fun _ _ _ => []) [x74]
      (keygen.newKeyGenerator (Some 0%nat) sample_keygen.by_id)
      sample_keygen.start in
  keygen.heap (snd run) !! 0%nat = Some [x7b; x7d]
  /\ (keygen.document (snd (fst run)) = Some 0%nat
      \/ forall a, keygen.document (snd (fst run)) = Some a ->
                   keygen.heap sample_keygen.start !! a = None).
Proof.
  intros run.
  apply (generate_keeps_input Z sample_keygen.Get sample_keygen.uuid
           sample_keygen.now sample_keygen.tick sample_keygen.counter id
           sample_keygen.parse sample_keygen.encode sample_keygen.set_append
           (fun _ _ _ => true) (fun _ _ _ => []) [x74] sample_keygen.by_id
           sample_keygen.start 0%nat [x7b; x7d] (fst (fst run))).
  - reflexivity.
  - rewrite <- !surjective_pairing. reflexivity.
Defined.

(** * Further properties of the code *)

(** ** Keys *)

Lemma byte_to_Z_inj a b : byte_to_Z a = byte_to_Z b -> a = b.
Proof.
  intros H. rewrite <- (byte_of_to_Z a), <- (byte_of_to_Z b). now rewrite H.
Qed.

Lemma Compare_eq_0 a b : keys.Compare a b = 0 <-> a = b.
Proof.
  revert b. induction a as [|x a IH]; intros [|y b]; cbn [keys.Compare];
    try (split; [discriminate | congruence]); [tauto|].
  destruct (Z.ltb_spec (byte_to_Z x) (byte_to_Z y));
    [split; [discriminate | intros [= -> ->]; lia]|].
  destruct (Z.ltb_spec (byte_to_Z y) (byte_to_Z x));
    [split; [discriminate | intros [= -> ->]; lia]|].
  assert (x = y) by (apply byte_to_Z_inj; lia). subst y.
  rewrite IH. split; congruence.
Qed.

Lemma Compare_antisym a b : keys.Compare b a = - keys.Compare a b.
Proof.
  revert b. induction a as [|x a IH]; intros [|y b]; cbn [keys.Compare];
    try reflexivity.
  destruct (Z.ltb_spec (byte_to_Z x) (byte_to_Z y)),
           (Z.ltb_spec (byte_to_Z y) (byte_to_Z x)); try lia. apply IH.
Qed.

(** X1. [CompareBytes] returns 0 exactly on the key's own serialized form,
    and comparing the other way round flips the sign. *)
Theorem CompareBytes_zero_iff (p q : keys.tableKey) (input : bytes) :
  (keys.CompareBytes p input = 0 <-> input = keys.SerializeToBytes p)
  /\ keys.CompareBytes q (keys.SerializeToBytes p)
     = - keys.CompareBytes p (keys.SerializeToBytes q).
Proof.
  unfold keys.CompareBytes. split.
  - rewrite Compare_eq_0. split; congruence.
  - apply Compare_antisym.
Qed.

Lemma Pack_app t1 t2 : tuple.Pack (t1 ++ t2) = tuple.Pack t1 ++ tuple.Pack t2.
Proof. unfold tuple.Pack. apply flat_map_app. Qed.

(** X2. Every serialized key starts with its table bytes, and the table
    bytes are all of it exactly when the key has no index parts. *)
Theorem SerializeToBytes_table_prefix (p : keys.tableKey) :
  exists tl,
    keys.SerializeToBytes p = keys.Table p ++ tl
    /\ (tl = [] <-> keys.IndexParts p = []).
Proof.
  destruct p as [table parts]. unfold keys.SerializeToBytes.
  cbn [keys.indexParts keys.table keys.Table keys.IndexParts].
  destruct parts as [|e parts]; cbn [length Nat.eqb].
  - exists []. now rewrite app_nil_r.
  - exists (tuple.Pack (e :: parts)). split; [reflexivity|].
    pose proof (tuple_facts.Pack_length (e :: parts)) as Hlen.
    split; [|discriminate].
    intros Hnil. rewrite Hnil in Hlen. cbn in Hlen. lia.
Qed.

(** ** The primary-index store *)

(** X3. [validateArgs] accepts exactly the arguments with three non-zero
    ids, a non-empty name and, where a payload is passed, a non-nil one;
    whatever it rejects it rejects as an InvalidArgument, and a zero id is
    reported before anything else. *)
Theorem validateArgs_decides (nsID dbID collID : Z) (name : string)
    (md : option (option metadata.PrimaryIndexMetadata)) :
  (metadata.validateArgs nsID dbID collID name md = None <->
   nsID <> 0 /\ dbID <> 0 /\ collID <> 0 /\ name <> ""%string
   /\ md <> Some None)
  /\ (forall e, metadata.validateArgs nsID dbID collID name md = Some e ->
                exists msg, e = InvalidArgument msg)
  /\ (nsID = 0 \/ dbID = 0 \/ collID = 0 ->
      metadata.validateArgs nsID dbID collID name md
      = Some (InvalidArgument "invalid id")).
Proof.
  split; [apply metadata_facts.validateArgs_None|]. split.
  - intros e He. pose proof (metadata_facts.validateArgs_error_kind _ _ _ _ _ _ He).
    destruct e; try discriminate. eauto.
  - intros H. unfold metadata.validateArgs.
    destruct (Z.eqb_spec nsID 0), (Z.eqb_spec dbID 0), (Z.eqb_spec collID 0);
      cbn [orb]; try reflexivity. lia.
Qed.

Lemma validateArgs_decides_witness :
  metadata.validateArgs 1 0 3 "" (Some None)
  = Some (InvalidArgument "invalid id").
Proof.
  apply (proj2 (proj2 (validateArgs_decides 1 0 3 "" (Some None)))).
  right. left. reflexivity.
Defined.

(** X4. The key of a named index lies under the key [getKey] builds for
    the empty name - the prefix [list] scans: same table, the same five
    leading parts followed by the name and [keyEnd], and so a serialized form
    that extends the serialized prefix. *)
Theorem getKey_under_list_prefix (indexKey keyEnd : tuple.element)
    (c : metadata.PrimaryIndexSubspace) (nsID dbID collID : Z)
    (name : string) :
  name <> ""%string ->
  let prefix := metadata.getKey indexKey keyEnd c nsID dbID collID "" in
  let key := metadata.getKey indexKey keyEnd c nsID dbID collID name in
  keys.Table key = keys.Table prefix
  /\ keys.IndexParts key
     = keys.IndexParts prefix
       ++ [tuple.EString (String.list_byte_of_string name); keyEnd]
  /\ exists tl,
       keys.SerializeToBytes key = keys.SerializeToBytes prefix ++ tl.
Proof.
  intros Hname prefix key. subst prefix key. unfold metadata.getKey.
  destruct (String.eqb_spec name ""); [contradiction|].
  cbn [String.eqb]. split; [reflexivity|]. split; [reflexivity|].
  unfold keys.SerializeToBytes, subspace.Pack.
  cbn [keys.NewKey keys.indexParts keys.table length Nat.eqb].
  eexists.
  change [tuple.EBytes (metadata.KeyVersion c);
          tuple.EBytes (metadata.UInt32ToByte nsID);
          tuple.EBytes (metadata.UInt32ToByte dbID);
          tuple.EBytes (metadata.UInt32ToByte collID); indexKey;
          tuple.EString (String.list_byte_of_string name); keyEnd]
    with ([tuple.EBytes (metadata.KeyVersion c);
           tuple.EBytes (metadata.UInt32ToByte nsID);
           tuple.EBytes (metadata.UInt32ToByte dbID);
           tuple.EBytes (metadata.UInt32ToByte collID); indexKey]
          ++ [tuple.EString (String.list_byte_of_string name); keyEnd]).
  rewrite Pack_app, app_assoc. reflexivity.
Qed.

Lemma getKey_under_list_prefix_witness :
  keys.Table (metadata.getKey sample.indexKey sample.keyEnd sample.indexStore
                1 2 3 "by_email")
  = keys.Table (metadata.getKey sample.indexKey sample.keyEnd
                  sample.indexStore 1 2 3 "")
  /\ keys.IndexParts (metadata.getKey sample.indexKey sample.keyEnd
                        sample.indexStore 1 2 3 "by_email")
     = keys.IndexParts (metadata.getKey sample.indexKey sample.keyEnd
                          sample.indexStore 1 2 3 "")
       ++ [tuple.EString (String.list_byte_of_string "by_email"); sample.keyEnd]
  /\ exists tl,
       keys.SerializeToBytes (metadata.getKey sample.indexKey sample.keyEnd
                                sample.indexStore 1 2 3 "by_email")
       = keys.SerializeToBytes (metadata.getKey sample.indexKey sample.keyEnd
                                  sample.indexStore 1 2 3 "") ++ tl.
Proof.
  apply (getKey_under_list_prefix sample.indexKey sample.keyEnd
           sample.indexStore 1 2 3 "by_email").
  discriminate.
Defined.

Module list_facts.
Import transaction.

Section rows.

Variable Unmarshal : bytes -> Result metadata.PrimaryIndexMetadata.

Definition step (acc : Result metadata.listed) (row : metadata.Row)
  : Result metadata.listed :=
  s ← acc;
  metadata.list_visit Unmarshal s (metadata.rowDropped row)
    (metadata.rowName row) (metadata.rowData row).

Definition active_named (name : string) (row : metadata.Row) : Prop :=
  metadata.rowDropped row = false /\ metadata.rowName row = name.

Lemma foldl_step_Err e rows : foldl step (Err e) rows = Err e.
Proof. induction rows as [|row rows IH]; [reflexivity | exact IH]. Qed.

Lemma decodeMetadata_error name payload e :
  metadata.decodeMetadata Unmarshal name payload = Err e ->
  e = Internal "failed to unmarshal collection metadata".
Proof.
  unfold metadata.decodeMetadata. destruct (_ =? _); [discriminate|].
  destruct (Unmarshal _); [discriminate|]. now intros [= <-].
Qed.

Lemma foldl_step_indexes rows acc0 acc :
  foldl step (Ok acc0) rows = Ok acc ->
  forall name md,
    metadata.indexes acc !! name = Some md ->
    metadata.indexes acc0 !! name = Some md
    \/ exists row,
         In row rows /\ active_named name row
         /\ metadata.decodeMetadata Unmarshal name (metadata.rowData row)
            = Ok md.
Proof.
  revert acc0. induction rows as [|row rows IH]; intros acc0.
  - intros [= <-] name md H. now left.
  - cbn [foldl]. unfold step at 2. cbn [mbind Result_bind bind].
    unfold metadata.list_visit.
    destruct (metadata.decodeMetadata _ _ _) as [m|e] eqn:Edec;
      cbn [mbind Result_bind bind]; [|now rewrite foldl_step_Err].
    destruct (metadata.rowDropped row) eqn:Edrop; intros Hfold name md Hmd;
      destruct (IH _ Hfold name md Hmd) as [H0|(r & Hin & Hr & Hd)];
      try (right; exists r; repeat split; [now right | apply Hr | apply Hr | exact Hd]).
    + now left.
    + cbn [metadata.indexes] in H0.
      destruct (decide (metadata.rowName row = name)) as [<-|Hne].
      * rewrite lookup_insert_eq in H0. injection H0 as <-.
        right. exists row. repeat split; [now left | exact Edrop | exact Edec].
      * rewrite lookup_insert_ne in H0 by exact Hne. now left.
Qed.

Lemma foldl_step_names rows acc0 acc :
  foldl step (Ok acc0) rows = Ok acc ->
  forall name,
    is_Some (metadata.indexes acc !! name) <->
    is_Some (metadata.indexes acc0 !! name)
    \/ exists row, In row rows /\ active_named name row.
Proof.
  revert acc0. induction rows as [|row rows IH]; intros acc0.
  - intros [= <-] name. split; [now left | intros [H|(r & [] & _)]; exact H].
  - cbn [foldl]. unfold step at 2. cbn [mbind Result_bind bind].
    unfold metadata.list_visit.
    destruct (metadata.decodeMetadata _ _ _) as [m|e] eqn:Edec;
      cbn [mbind Result_bind bind]; [|now rewrite foldl_step_Err].
    destruct (metadata.rowDropped row) eqn:Edrop; intros Hfold name;
      rewrite (IH _ Hfold name); cbn [metadata.indexes].
    + split.
      * intros [H|(r & Hin & Hr)]; [now left|].
        right. exists r. split; [now right | exact Hr].
      * intros [H|(r & [<-|Hin] & Hr)]; [now left | | right; eauto].
        destruct Hr as [Hr _]. congruence.
    + split.
      * intros [H|(r & Hin & Hr)].
        -- destruct (decide (metadata.rowName row = name)) as [<-|Hne].
           ++ right. exists row. split; [now left | now split].
           ++ rewrite lookup_insert_ne in H by exact Hne. now left.
        -- right. exists r. split; [now right | exact Hr].
      * intros [H|(r & [<-|Hin] & Hr)].
        -- left. destruct (decide (metadata.rowName row = name)) as [<-|Hne].
           ++ rewrite lookup_insert_eq. eauto.
           ++ now rewrite lookup_insert_ne.
        -- left. destruct Hr as [_ <-]. rewrite lookup_insert_eq. eauto.
        -- right. eauto.
Qed.

Lemma foldl_step_failure rows acc0 row e :
  In row rows ->
  metadata.decodeMetadata Unmarshal (metadata.rowName row)
    (metadata.rowData row) = Err e ->
  foldl step (Ok acc0) rows
  = Err (Internal "failed to unmarshal collection metadata").
Proof.
  intros Hin Hfail. revert acc0.
  induction rows as [|row0 rows IH]; intros acc0; [destruct Hin|].
  cbn [foldl]. unfold step at 2. cbn [mbind Result_bind bind].
  unfold metadata.list_visit.
  destruct (metadata.decodeMetadata _ (metadata.rowName row0) _) as [m|e0] eqn:Edec;
    cbn [mbind Result_bind bind].
  - destruct Hin as [->|Hin]; [congruence|].
    destruct (metadata.rowDropped row0); apply IH; exact Hin.
  - apply decodeMetadata_error in Edec. subst e0. apply foldl_step_Err.
Qed.

End rows.

End list_facts.

(** X5. What [list] returns: when it succeeds, the names in the returned
    map are exactly the names of the scanned rows that are not dropped, and
    the record under a name is the decoding of such a row. *)
Theorem list_returns_active_rows
    (Unmarshal : bytes -> Result metadata.PrimaryIndexMetadata)
    (rangeOrder : gmap string Z -> list (string * Z))
    (rows : list metadata.Row)
    (m : gmap string metadata.PrimaryIndexMetadata) :
  metadata.list Unmarshal rangeOrder (Ok rows) = Ok m ->
  forall name,
    (is_Some (m !! name) <->
     exists row,
       In row rows /\ metadata.rowDropped row = false
       /\ metadata.rowName row = name)
    /\ (forall md,
          m !! name = Some md ->
          exists row,
            In row rows /\ metadata.rowDropped row = false
            /\ metadata.rowName row = name
            /\ metadata.decodeMetadata Unmarshal name (metadata.rowData row)
               = Ok md).
Proof.
  unfold metadata.list, metadata.listMetadata. cbn [mbind Result_bind bind].
  change (foldl _ (Ok ?i) rows) with (foldl (list_facts.step Unmarshal) (Ok i) rows).
  destruct (foldl _ _ rows) as [acc|e] eqn:Efold; cbn [mbind Result_bind bind];
    [|discriminate].
  destruct (metadata.retrogression_check _ _); cbn [mbind Result_bind bind];
    [|discriminate].
  intros [= <-] name. split.
  - rewrite (list_facts.foldl_step_names Unmarshal rows _ acc Efold name).
    cbn [metadata.indexes]. rewrite lookup_empty. split.
    + intros [[x Hx]|(r & Hin & Hd & Hn)]; [discriminate | eauto].
    + intros (r & Hin & Hd & Hn). right. exists r. now repeat split.
  - intros md Hmd.
    destruct (list_facts.foldl_step_indexes Unmarshal rows _ acc Efold name md Hmd)
      as [H0|(r & Hin & [Hd Hn] & Hdec)].
    + cbn [metadata.indexes] in H0. rewrite lookup_empty in H0. discriminate.
    + exists r. now repeat split.
Qed.

Lemma list_returns_active_rows_witness :
  let rows :=
    [metadata.mkRow true "x"
       (transaction.mkTableData 0 (metadata.UInt32ToByte 4) 0 None None);
     metadata.mkRow false "x"
       (transaction.mkTableData 0 (metadata.UInt32ToByte 5) 0 None None)] in
  is_Some (({[ "x"%string := metadata.mkPrimaryIndexMetadata 5 "" ]}
            : gmap string metadata.PrimaryIndexMetadata) !! "x"%string) <->
  exists row,
    In row rows /\ metadata.rowDropped row = false
    /\ metadata.rowName row = "x"%string.
Proof.
  intros rows.
  apply (list_returns_active_rows json.Unmarshal map_to_list rows
           {[ "x"%string := metadata.mkPrimaryIndexMetadata 5 "" ]}).
  vm_compute. reflexivity.
Defined.

(** X6. One undecodable row spoils the listing: if the payload of any
    scanned row, dropped or not, fails to decode, [list] returns the Internal
    error of [decodeMetadata] and no map. *)
Theorem list_fails_on_undecodable_row
    (Unmarshal : bytes -> Result metadata.PrimaryIndexMetadata)
    (rangeOrder : gmap string Z -> list (string * Z))
    (rows : list metadata.Row) (row : metadata.Row) (e : error) :
  In row rows ->
  metadata.decodeMetadata Unmarshal (metadata.rowName row)
    (metadata.rowData row) = Err e ->
  metadata.list Unmarshal rangeOrder (Ok rows)
  = Err (Internal "failed to unmarshal collection metadata").
Proof.
  intros Hin Hfail.
  unfold metadata.list, metadata.listMetadata. cbn [mbind Result_bind bind].
  change (foldl _ (Ok ?i) rows) with (foldl (list_facts.step Unmarshal) (Ok i) rows).
  now rewrite (list_facts.foldl_step_failure Unmarshal rows _ row e Hin Hfail).
Qed.

Lemma list_fails_on_undecodable_row_witness :
  metadata.list json.Unmarshal map_to_list
    (Ok [metadata.mkRow false "x"
           (transaction.mkTableData 0 (metadata.UInt32ToByte 5) 0 None None);
         metadata.mkRow true "y"
           (transaction.mkTableData 1 [x7b] 0 None None)])
  = Err (Internal "failed to unmarshal collection metadata").
Proof.
  apply (list_fails_on_undecodable_row json.Unmarshal map_to_list _
           (metadata.mkRow true "y" (transaction.mkTableData 1 [x7b] 0 None None))
           (Internal "failed to unmarshal collection metadata")).
  - right. left. reflexivity.
  - reflexivity.
Defined.

(** ** The key generator, further *)

Module keygen_more.
Import schema keygen.

Section loop.

Variable env : Type.
Variable jsonparser_Get :
  bytes -> string -> bytes * jsonparser.ValueType * option error.
Variable NewUUIDAsString : env -> bytes * env.
Variable NowRFC3339Nano : env -> bytes * env.
Variable NowUnixNano : env -> Z * env.
Variable GenerateCounter : bytes -> env -> Result Z * env.
Variable base64_EncodeToString : bytes -> bytes.
Variable NewValue : FieldType -> bytes -> Result tuple.element.
Variable Set_result : bytes -> bytes -> string -> Result bytes.
Variable Set_inplace : bytes -> bytes -> string -> bool.
Variable Set_residue : bytes -> bytes -> string -> bytes.

Let loop :=
  generate_fields jsonparser_Get NewUUIDAsString NowRFC3339Nano NowUnixNano
    GenerateCounter base64_EncodeToString NewValue Set_result Set_inplace
    Set_residue.

Lemma setKeyInDoc_keeps_flags field jsonVal k (w : world env) r k' w' :
  setKeyInDoc Set_result Set_inplace Set_residue field jsonVal k w
  = (r, k', w') ->
  forceInsert k' = forceInsert k /\ index k' = index k.
Proof.
  unfold setKeyInDoc. destruct (jsonparser_Set _ _ _ _ _ _ _) as [[doc|e] h];
    now intros [= <- <- <-].
Qed.

Lemma loop_read_only fields table parts k w r k' w' :
  Forall (fun f => AutoGenerate f = false) fields ->
  loop fields table parts k w = (r, k', w') ->
  w' = w /\ document k' = document k /\ forceInsert k' = forceInsert k.
Proof.
  intros Hall. revert parts k. unfold loop.
  induction Hall as [|field rest Hf _ IH]; intros parts k.
  - now intros [= <- <- <-].
  - cbn [generate_fields]. unfold IsAutoGenerated. rewrite Hf. cbn [andb].
    destruct (jsonparser_Get _ _) as [[jsonVal dtp] [e|]];
      [now intros [= <- <- <-]|].
    destruct (NewValue _ _) as [v|e]; [|now intros [= <- <- <-]].
    intros H. apply IH in H. exact H.
Qed.

Lemma loop_forceInsert fields table parts k w r k' w' :
  loop fields table parts k w = (r, k', w') ->
  forceInsert k' = true ->
  forceInsert k = true
  \/ exists f,
       In f fields /\ AutoGenerate f = true
       /\ (DataType f = Int64Type \/ DataType f = DateTimeType).
Proof.
  unfold loop. revert parts k w.
  induction fields as [|field rest IH]; intros parts k w.
  - intros [= <- <- <-] H. now left.
  - cbn [generate_fields].
    destruct (jsonparser_Get _ _) as [[jsonVal dtp] err].
    destruct (IsAutoGenerated field) eqn:Eauto; cbn [andb].
    + set (wanted := bool_decide (dtp = jsonparser.NotExist) || _).
      destruct wanted.
      * destruct (get _ _ _ _ _ _ _ _) as [[[jv v]|e] w1];
          [|intros [= <- <- <-] H; now left].
        destruct (setKeyInDoc _ _ _ _ _ _ _) as [[[u|e] k2] w2] eqn:Eset;
          apply setKeyInDoc_keeps_flags in Eset as [Hfi _];
          [|intros [= <- <- <-] H; left; congruence].
        intros Hloop Htrue.
        destruct (IH _ _ _ Hloop Htrue) as [H|(f & Hin & Ha & Ht)];
          [|right; exists f; auto using in_cons].
        cbn [addKeyToResp forceInsert] in H.
        destruct (bool_decide (Type_ field = Int64Type)
                  || bool_decide (Type_ field = DateTimeType)) eqn:Ety.
        -- right. exists field. split; [now left|]. split; [exact Eauto|].
           apply orb_true_iff in Ety as [Ety|Ety];
             apply bool_decide_eq_true_1 in Ety; auto.
        -- left. congruence.
      * destruct err as [e|]; [intros [= <- <- <-] H; now left|].
        destruct (NewValue _ _) as [v|e]; [|intros [= <- <- <-] H; now left].
        intros Hloop Htrue.
        destruct (IH _ _ _ Hloop Htrue) as [H|(f & Hin & Ha & Ht)];
          [now left | right; exists f; auto using in_cons].
    + destruct err as [e|]; [intros [= <- <- <-] H; now left|].
      destruct (NewValue _ _) as [v|e]; [|intros [= <- <- <-] H; now left].
      intros Hloop Htrue.
      destruct (IH _ _ _ Hloop Htrue) as [H|(f & Hin & Ha & Ht)];
        [now left | right; exists f; auto using in_cons].
Qed.

Lemma loop_parts fields table parts k w parts' k' w' :
  loop fields table parts k w = (Ok parts', k', w') ->
  length parts' = (length parts + length fields)%nat /\ index k' = index k.
Proof.
  unfold loop. revert parts k w.
  induction fields as [|field rest IH]; intros parts k w.
  - intros [= <- <- <-]. split; [cbn [length]; lia | reflexivity].
  - cbn [generate_fields].
    destruct (jsonparser_Get _ _) as [[jsonVal dtp] err].
    set (autoGenerate := IsAutoGenerated field && _).
    destruct autoGenerate.
    + destruct (get _ _ _ _ _ _ _ _) as [[[jv v]|e] w1]; [|discriminate].
      destruct (setKeyInDoc _ _ _ _ _ _ _) as [[[u|e] k2] w2] eqn:Eset;
        [|discriminate].
      apply setKeyInDoc_keeps_flags in Eset as [_ Hidx].
      intros H. apply IH in H as [Hlen Hi]. rewrite length_app in Hlen.
      cbn [length] in *. split; [lia|].
      rewrite Hi. cbn [addKeyToResp index].
      destruct (_ || _); exact Hidx.
    + destruct err as [e|]; [discriminate|].
      destruct (NewValue _ _) as [v|e]; [|discriminate].
      intros H. apply IH in H as [Hlen Hi]. rewrite length_app in Hlen.
      cbn [length] in *. split; [lia | exact Hi].
Qed.

End loop.

End keygen_more.

(** X7. Without auto-generated fields [generate] only reads: whatever it
    returns, the world (heap, clock, counters) is as before, the generator
    holds the very slice it was given and [forceInsert] stays unset. *)
Theorem generate_read_only
    (env : Type)
    (jsonparser_Get :
       bytes -> string -> bytes * jsonparser.ValueType * option error)
    (NewUUIDAsString : env -> bytes * env)
    (NowRFC3339Nano : env -> bytes * env)
    (NowUnixNano : env -> Z * env)
    (GenerateCounter : bytes -> env -> Result Z * env)
    (base64_EncodeToString : bytes -> bytes)
    (NewValue : schema.FieldType -> bytes -> Result tuple.element)
    (EncodeKey :
       bytes -> schema.Index -> list tuple.element -> Result keys.tableKey)
    (Set_result : bytes -> bytes -> string -> Result bytes)
    (Set_inplace : bytes -> bytes -> string -> bool)
    (Set_residue : bytes -> bytes -> string -> bytes)
    (table : bytes) (index : schema.Index) (doc : option keygen.addr)
    (w : keygen.world env)
    (r : Result keys.tableKey) (k' : keygen.keyGenerator)
    (w' : keygen.world env) :
  Forall (fun f => schema.AutoGenerate f = false) (schema.Fields index) ->
  keygen.generate jsonparser_Get NewUUIDAsString NowRFC3339Nano NowUnixNano
    GenerateCounter base64_EncodeToString NewValue EncodeKey Set_result
    Set_inplace Set_residue table (keygen.newKeyGenerator doc index) w
  = (r, k', w') ->
  w' = w /\ keygen.document k' = doc /\ keygen.forceInsert k' = false.
Proof.
  intros Hall. unfold keygen.generate.
  destruct (keygen.generate_fields _ _ _ _ _ _ _ _ _ _ _ _ _ _ _)
    as [[r0 k0] w0] eqn:Eloop.
  apply (keygen_more.loop_read_only env) in Eloop; [|exact Hall].
  destruct r0; now intros [= <- <- <-].
Qed.

Lemma generate_read_only_witness :
  let run :=
    keygen.generate sample_keygen.Get sample_keygen.uuid sample_keygen.now
      sample_keygen.tick sample_keygen.counter id sample_keygen.parse
      sample_keygen.encode sample_keygen.set_append (fun _ _ _ => true)
      (fun _ _ _ => []) [x74]
      (keygen.newKeyGenerator (Some 0%nat)
         (schema.mkIndex "pkey" [schema.mkField "id" schema.Int32Type false]))
      sample_keygen.start in
  snd run = sample_keygen.start
  /\ keygen.document (snd (fst run)) = Some 0%nat
  /\ keygen.forceInsert (snd (fst run)) = false.
Proof.
  intros run.
  apply (generate_read_only Z sample_keygen.Get sample_keygen.uuid
           sample_keygen.now sample_keygen.tick sample_keygen.counter id
           sample_keygen.parse sample_keygen.encode sample_keygen.set_append
           (fun _ _ _ => true) (fun _ _ _ => []) [x74]
           (schema.mkIndex "pkey" [schema.mkField "id" schema.Int32Type false])
           (Some 0%nat) sample_keygen.start (fst (fst run))).
  - repeat constructor.
  - rewrite <- !surjective_pairing. reflexivity.
Defined.

(** X8. [forceInsert] is only ever set for a generated timestamp: if the
    generator comes back from [generate] with [forceInsert] set, the index has
    an auto-generated field of type Int64 or DateTime. *)
Theorem generate_forceInsert_sound
    (env : Type)
    (jsonparser_Get :
       bytes -> string -> bytes * jsonparser.ValueType * option error)
    (NewUUIDAsString : env -> bytes * env)
    (NowRFC3339Nano : env -> bytes * env)
    (NowUnixNano : env -> Z * env)
    (GenerateCounter : bytes -> env -> Result Z * env)
    (base64_EncodeToString : bytes -> bytes)
    (NewValue : schema.FieldType -> bytes -> Result tuple.element)
    (EncodeKey :
       bytes -> schema.Index -> list tuple.element -> Result keys.tableKey)
    (Set_result : bytes -> bytes -> string -> Result bytes)
    (Set_inplace : bytes -> bytes -> string -> bool)
    (Set_residue : bytes -> bytes -> string -> bytes)
    (table : bytes) (index : schema.Index) (doc : option keygen.addr)
    (w : keygen.world env)
    (r : Result keys.tableKey) (k' : keygen.keyGenerator)
    (w' : keygen.world env) :
  keygen.generate jsonparser_Get NewUUIDAsString NowRFC3339Nano NowUnixNano
    GenerateCounter base64_EncodeToString NewValue EncodeKey Set_result
    Set_inplace Set_residue table (keygen.newKeyGenerator doc index) w
  = (r, k', w') ->
  keygen.forceInsert k' = true ->
  exists f,
    In f (schema.Fields index) /\ schema.AutoGenerate f = true
    /\ (schema.DataType f = schema.Int64Type
        \/ schema.DataType f = schema.DateTimeType).
Proof.
  unfold keygen.generate.
  destruct (keygen.generate_fields _ _ _ _ _ _ _ _ _ _ _ _ _ _ _)
    as [[r0 k0] w0] eqn:Eloop.
  intros Hgen Htrue.
  assert (Hk : keygen.forceInsert k0 = true)
    by (destruct r0; injection Hgen as <- <- <-; exact Htrue).
  destruct (keygen_more.loop_forceInsert env _ _ _ _ _ _ _ _ _ _ _ _ _ _ _ _ _ _
              Eloop Hk) as [H|H]; [discriminate | exact H].
Qed.

Lemma generate_forceInsert_sound_witness :
  exists f,
    In f (schema.Fields sample_keygen.by_id) /\ schema.AutoGenerate f = true
    /\ (schema.DataType f = schema.Int64Type
        \/ schema.DataType f = schema.DateTimeType).
Proof.
  pose (run :=
    keygen.generate sample_keygen.Get sample_keygen.uuid sample_keygen.now
      sample_keygen.tick sample_keygen.counter id sample_keygen.parse
      sample_keygen.encode sample_keygen.set_append (fun _ _ _ => true)
      (fun _ _ _ => []) [x74]
      (keygen.newKeyGenerator (Some 0%nat) sample_keygen.by_id)
      sample_keygen.start).
  apply (generate_forceInsert_sound Z sample_keygen.Get sample_keygen.uuid
           sample_keygen.now sample_keygen.tick sample_keygen.counter id
           sample_keygen.parse sample_keygen.encode sample_keygen.set_append
           (fun _ _ _ => true) (fun _ _ _ => []) [x74] sample_keygen.by_id
           (Some 0%nat) sample_keygen.start (fst (fst run)) (snd (fst run))
           (snd run)).
  - rewrite <- !surjective_pairing. reflexivity.
  - reflexivity.
Defined.

(** X9. [generate] hands the encoder one part per field of the index, and
    only when every field went through: its result is the encoder's for such
    a list of parts, or the error of the field the loop stopped at. *)
Theorem generate_one_part_per_field
    (env : Type)
    (jsonparser_Get :
       bytes -> string -> bytes * jsonparser.ValueType * option error)
    (NewUUIDAsString : env -> bytes * env)
    (NowRFC3339Nano : env -> bytes * env)
    (NowUnixNano : env -> Z * env)
    (GenerateCounter : bytes -> env -> Result Z * env)
    (base64_EncodeToString : bytes -> bytes)
    (NewValue : schema.FieldType -> bytes -> Result tuple.element)
    (EncodeKey :
       bytes -> schema.Index -> list tuple.element -> Result keys.tableKey)
    (Set_result : bytes -> bytes -> string -> Result bytes)
    (Set_inplace : bytes -> bytes -> string -> bool)
    (Set_residue : bytes -> bytes -> string -> bytes)
    (table : bytes) (k : keygen.keyGenerator) (w : keygen.world env) :
  let run :=
    keygen.generate jsonparser_Get NewUUIDAsString NowRFC3339Nano NowUnixNano
      GenerateCounter base64_EncodeToString NewValue EncodeKey Set_result
      Set_inplace Set_residue table k w in
  let loop :=
    keygen.generate_fields jsonparser_Get NewUUIDAsString NowRFC3339Nano
      NowUnixNano GenerateCounter base64_EncodeToString NewValue Set_result
      Set_inplace Set_residue (schema.Fields (keygen.index k)) table [] k w in
  (exists parts,
      loop = (Ok parts, snd (fst run), snd run)
      /\ length parts = length (schema.Fields (keygen.index k))
      /\ fst (fst run) = EncodeKey table (keygen.index k) parts)
  \/ (exists e,
        loop = (Err e, snd (fst run), snd run) /\ fst (fst run) = Err e).
Proof.
  intros run loop. subst run. unfold keygen.generate. fold loop.
  destruct loop as [[[parts|e] k0] w0] eqn:Eloop; cbn [fst snd].
  - left. exists parts. split; [reflexivity|].
    apply (keygen_more.loop_parts env) in Eloop as [Hlen Hidx].
    cbn [length] in Hlen. split; [exact Hlen | now rewrite Hidx].
  - right. exists e. split; reflexivity.
Qed.

(** X10. Of the generators of [get] only the one for Int32 goes to the
    counter of the table: for every other field type the result does not
    depend on the counter; and a field type outside the six supported ones
    is refused as an invalid argument, with the world left as it is. *)
Theorem get_counter_only_for_Int32
    (env : Type)
    (NewUUIDAsString : env -> bytes * env)
    (NowRFC3339Nano : env -> bytes * env)
    (NowUnixNano : env -> Z * env)
    (GenerateCounter GenerateCounter' : bytes -> env -> Result Z * env)
    (base64_EncodeToString : bytes -> bytes)
    (table : bytes) (field : schema.Field) (w : keygen.world env) :
  (schema.Type_ field <> schema.Int32Type ->
   keygen.get NewUUIDAsString NowRFC3339Nano NowUnixNano GenerateCounter
     base64_EncodeToString table field w
   = keygen.get NewUUIDAsString NowRFC3339Nano NowUnixNano GenerateCounter'
       base64_EncodeToString table field w)
  /\ (~ In (schema.Type_ field)
          [schema.StringType; schema.UUIDType; schema.ByteType;
           schema.DateTimeType; schema.Int64Type; schema.Int32Type] ->
      keygen.get NewUUIDAsString NowRFC3339Nano NowUnixNano GenerateCounter
        base64_EncodeToString table field w
      = (Err (InvalidArgument "unsupported type found in auto-generator"), w)).
Proof.
  unfold keygen.get. split; intros H;
    destruct (schema.Type_ field); try reflexivity; try congruence;
    exfalso; apply H; cbn; tauto.
Qed.

Lemma get_counter_only_for_Int32_witness :
  keygen.get sample_keygen.uuid sample_keygen.now sample_keygen.tick
    sample_keygen.counter id [x74]
    (schema.mkField "score" schema.DoubleType true) sample_keygen.start
  = (Err (InvalidArgument "unsupported type found in auto-generator"),
     sample_keygen.start).
Proof.
  apply (proj2 (get_counter_only_for_Int32 Z sample_keygen.uuid
                  sample_keygen.now sample_keygen.tick sample_keygen.counter
                  sample_keygen.counter id [x74]
                  (schema.mkField "score" schema.DoubleType true)
                  sample_keygen.start)).
  cbn. intros [H|[H|[H|[H|[H|[H|[]]]]]]]; discriminate H.
Defined.

(** ** The planner, further *)

(** X11. A plan that [BuildSecondaryIndexKeys] returns is always of an
    indexable data type, and it is one of the plans a builder produced: an
    equality plan, or one of the sorted range plans. *)
Theorem BuildSecondaryIndexKeys_returns_built_plan
    (ToSecondaryOrder : schema.FieldType -> filter.Value -> Z)
    (SortQueryPlans : list filter.QueryPlan -> list filter.QueryPlan)
    (eqKeyBuilder rangKeyBuilder : planner.Builder)
    (coll : schema.DefaultCollection) (queryFilters : list filter.Selector)
    (plan : filter.QueryPlan) :
  planner.BuildSecondaryIndexKeys ToSecondaryOrder SortQueryPlans
    eqKeyBuilder rangKeyBuilder coll queryFilters = Ok plan ->
  planner.indexedDataType plan = true
  /\ ((exists eqPlan,
         eqKeyBuilder (planner.encoder coll)
           (planner.buildIndexParts ToSecondaryOrder) queryFilters
           (schema.GetActiveIndexedFields coll) = Ok eqPlan
         /\ In plan eqPlan)
      \/ (exists rangePlans,
            rangKeyBuilder (planner.encoder coll)
              (planner.buildIndexParts ToSecondaryOrder) queryFilters
              (schema.GetActiveIndexedFields coll) = Ok rangePlans
            /\ In plan (SortQueryPlans rangePlans))).
Proof.
  unfold planner.BuildSecondaryIndexKeys.
  destruct (length queryFilters =? 0)%nat; [discriminate|].
  destruct (length (schema.GetActiveIndexedFields coll) =? 0)%nat;
    [discriminate|].
  destruct (eqKeyBuilder _ _ _ _) as [eqPlan|e1].
  - destruct (List.find planner.indexedDataType eqPlan) as [p|] eqn:Efind.
    + intros [= <-]. apply find_some in Efind as [Hin Hp].
      split; [exact Hp|]. left. eauto.
    + destruct (rangKeyBuilder _ _ _ _) as [rangePlans|e2]; [|discriminate].
      destruct (length rangePlans =? 0)%nat; [discriminate|].
      destruct (List.find _ (SortQueryPlans rangePlans)) as [p|] eqn:Ef2;
        [|discriminate].
      intros [= <-]. apply find_some in Ef2 as [Hin Hp].
      split; [exact Hp|]. right. eauto.
  - destruct (rangKeyBuilder _ _ _ _) as [rangePlans|e2]; [|discriminate].
    destruct (length rangePlans =? 0)%nat; [discriminate|].
    destruct (List.find _ (SortQueryPlans rangePlans)) as [p|] eqn:Ef2;
      [|discriminate].
    intros [= <-]. apply find_some in Ef2 as [Hin Hp].
    split; [exact Hp|]. right. eauto.
Qed.

Lemma BuildSecondaryIndexKeys_returns_built_plan_witness :
  planner.indexedDataType
    (filter.mkQueryPlan filter.EQUAL
       [keys.NewKey [x69]
          [tuple.EString (String.list_byte_of_string "skey");
           tuple.EString (String.list_byte_of_string "kvs");
           tuple.EString (String.list_byte_of_string "age");
           tuple.EInt 1; tuple.EInt 30]]
       schema.Int64Type) = true.
Proof.
  apply (BuildSecondaryIndexKeys_returns_built_plan sample.typeOrder id
           filter.SecondaryKeyEqBuilder_Build sample.noRange sample.people
           [sample.age_is_30]).
  reflexivity.
Defined.

(** X12. A failure of the equality builder is not reported: the planner
    goes on to the range builder exactly as if the equality builder had
    found no plan. *)
Theorem BuildSecondaryIndexKeys_ignores_eq_failure
    (ToSecondaryOrder : schema.FieldType -> filter.Value -> Z)
    (SortQueryPlans : list filter.QueryPlan -> list filter.QueryPlan)
    (eqKeyBuilder rangKeyBuilder : planner.Builder)
    (coll : schema.DefaultCollection) (queryFilters : list filter.Selector)
    (e : error) :
  eqKeyBuilder (planner.encoder coll)
    (planner.buildIndexParts ToSecondaryOrder) queryFilters
    (schema.GetActiveIndexedFields coll) = Err e ->
  planner.BuildSecondaryIndexKeys ToSecondaryOrder SortQueryPlans
    eqKeyBuilder rangKeyBuilder coll queryFilters
  = planner.BuildSecondaryIndexKeys ToSecondaryOrder SortQueryPlans
      (fun _ _ _ _ => Ok []) rangKeyBuilder coll queryFilters.
Proof.
  intros He. unfold planner.BuildSecondaryIndexKeys. rewrite He. reflexivity.
Qed.

Lemma BuildSecondaryIndexKeys_ignores_eq_failure_witness :
  planner.BuildSecondaryIndexKeys sample.typeOrder id
    (fun _ _ _ _ => Err (InvalidArgument "reusing same fields"))
    sample.noRange sample.people [sample.age_is_30]
  = planner.BuildSecondaryIndexKeys sample.typeOrder id
      (fun _ _ _ _ => Ok []) sample.noRange sample.people [sample.age_is_30].
Proof.
  apply (BuildSecondaryIndexKeys_ignores_eq_failure sample.typeOrder id
           (fun _ _ _ _ => Err (InvalidArgument "reusing same fields"))
           sample.noRange sample.people [sample.age_is_30]
           (InvalidArgument "reusing same fields")).
  reflexivity.
Defined.

(** X13. A failure of the range builder is returned as it is, whatever its
    kind, when there are filters and indexed fields and the equality builder
    gave no indexable plan. *)
Theorem BuildSecondaryIndexKeys_forwards_range_failure
    (ToSecondaryOrder : schema.FieldType -> filter.Value -> Z)
    (SortQueryPlans : list filter.QueryPlan -> list filter.QueryPlan)
    (eqKeyBuilder rangKeyBuilder : planner.Builder)
    (coll : schema.DefaultCollection) (queryFilters : list filter.Selector)
    (e : error) :
  queryFilters <> [] ->
  schema.GetActiveIndexedFields coll <> [] ->
  planner_facts.no_indexable_plan
    (eqKeyBuilder (planner.encoder coll)
       (planner.buildIndexParts ToSecondaryOrder) queryFilters
       (schema.GetActiveIndexedFields coll)) ->
  rangKeyBuilder (planner.encoder coll)
    (planner.buildIndexParts ToSecondaryOrder) queryFilters
    (schema.GetActiveIndexedFields coll) = Err e ->
  planner.BuildSecondaryIndexKeys ToSecondaryOrder SortQueryPlans
    eqKeyBuilder rangKeyBuilder coll queryFilters = Err e.
Proof.
  intros Hf Hc Heq Hr. unfold planner.BuildSecondaryIndexKeys.
  destruct queryFilters as [|q qs]; [contradiction|]. cbn [length Nat.eqb].
  destruct (schema.GetActiveIndexedFields coll) as [|f0 fs];
    [contradiction|]. cbn [length Nat.eqb].
  rewrite Hr.
  destruct (eqKeyBuilder _ _ _ _) as [eqPlan|e1]; [|reflexivity].
  now rewrite (planner_facts.find_indexed_None eqPlan (Heq _ eq_refl)).
Qed.

Lemma BuildSecondaryIndexKeys_forwards_range_failure_witness :
  planner.BuildSecondaryIndexKeys sample.typeOrder id
    filter.SecondaryKeyEqBuilder_Build
    (fun _ _ _ _ => Err (Internal "range builder broke"))
    sample.people [sample.blob_is_x]
  = Err (Internal "range builder broke").
Proof.
  apply (BuildSecondaryIndexKeys_forwards_range_failure sample.typeOrder id
           filter.SecondaryKeyEqBuilder_Build
           (fun _ _ _ _ => Err (Internal "range builder broke"))
           sample.people [sample.blob_is_x]).
  - discriminate.
  - discriminate.
  - intros plans H. vm_compute in H. injection H as <-. repeat constructor.
  - reflexivity.
Defined.

(** ** The reader, further *)

Module reader_more.
Import transaction reader.

(** The primary key a hit points at. *)
Definition primary_key (it : SecondaryIndexReaderImpl)
    (indexKey : keys.tableKey) : keys.tableKey :=
  keys.NewKey (schema.EncodedName (coll it))
    (skipn PrimaryKeyPos (keys.IndexParts indexKey)).

Lemma Read_store key tx r tx' :
  Read key tx = (r, tx') ->
  store tx' = store tx /\ failed tx' = failed tx
  /\ issued tx' = issued tx ++ [OpRead (keys.SerializeToBytes key)].
Proof.
  unfold Read, record. cbn [failed store issued].
  destruct (failed tx) eqn:E; intros [= <- <-]; cbn; auto.
Qed.

End reader_more.

(** X14. When [Next] returns true it has taken one hit off the scan,
    decoded its key, and written the primary row: the row's key is the
    serialized primary key built from the parts after [PrimaryKeyPos], its
    data is what the store holds under that key, and no error is latched. *)
Theorem Next_true_row (it it' : reader.SecondaryIndexReaderImpl)
    (row : option reader.Row) :
  reader.Next it = reader.Returned true row it' ->
  exists hit rest indexKey data,
    reader.upcoming (reader.kvIter it) = reader.Hit hit :: rest
    /\ reader.upcoming (reader.kvIter it') = rest
    /\ keys.FromBinary (schema.EncodedTableIndexName (reader.coll it))
         (reader.Key hit) = Ok indexKey
    /\ transaction.store (reader.tx it)
         !! keys.SerializeToBytes (reader_more.primary_key it indexKey)
       = Some data
    /\ row = Some {| reader.Key :=
                       keys.SerializeToBytes (reader_more.primary_key it indexKey);
                     reader.Data := Some data |}
    /\ reader.Interrupted it' = None.
Proof.
  unfold reader.Next, reader.Iterator_Interrupted, reader.Iterator_Next.
  destruct (reader.err it) eqn:Eerr; [discriminate|].
  destruct (reader.stopped (reader.kvIter it)) eqn:Estop; [discriminate|].
  destruct (reader.upcoming (reader.kvIter it)) as [|[hit|e] rest] eqn:Eup;
    try discriminate.
  cbn [reader.coll reader.tx reader.err reader.kvIter].
  destruct (keys.FromBinary _ _) as [indexKey|e] eqn:Ekey; [|discriminate].
  destruct (_ <=? _)%nat; [|discriminate].
  unfold transaction.Read, transaction.record.
  cbn [transaction.failed transaction.store transaction.issued].
  destruct (transaction.failed (reader.tx it)); [discriminate|].
  destruct (transaction.store (reader.tx it) !! _) as [data|] eqn:Edoc;
    [|discriminate].
  intros [= <- <-]. exists hit, rest, indexKey, data.
  repeat split; try reflexivity; assumption.
Qed.

Lemma Next_true_row_witness :
  exists data,
    transaction.store
      (reader.tx (sample.reader_on [reader.Hit (sample.indexRow 30 2)] None))
      !! sample.pkey 2 = Some data
    /\ data = sample.doc 2.
Proof.
  destruct (Next_true_row
              (sample.reader_on [reader.Hit (sample.indexRow 30 2)] None)
              {| reader.coll := sample.people;
                 reader.tx :=
                   {| transaction.store := {[ sample.pkey 2 := sample.doc 2 ]};
                      transaction.issued := [transaction.OpRead (sample.pkey 2)];
                      transaction.failed := None |};
                 reader.err := None;
                 reader.kvIter := {| reader.upcoming := [];
                                     reader.stopped := None |} |}
              (Some {| reader.Key := sample.pkey 2;
                       reader.Data := Some (sample.doc 2) |})
              eq_refl)
    as (hit & rest & indexKey & data & _ & _ & _ & Hdoc & Hrow & _).
  injection Hrow as Hkey Hdata. exists data. rewrite Hkey. split; [exact Hdoc|].
  congruence.
Defined.

(** X15. An interruption of the underlying iterator is latched: with no
    error yet recorded and the iterator interrupted, [Next] returns false,
    reads nothing, and [Interrupted] returns the iterator's error from then
    on. *)
Theorem Next_records_interruption (it : reader.SecondaryIndexReaderImpl)
    (e : error) :
  reader.err it = None ->
  reader.Iterator_Interrupted (reader.kvIter it) = Some e ->
  reader.Next it = reader.Returned false None (reader.with_err it e)
  /\ reader.Interrupted (reader.with_err it e) = Some e
  /\ reader.tx (reader.with_err it e) = reader.tx it.
Proof.
  intros Herr Hint. unfold reader.Next. rewrite Herr, Hint. now repeat split.
Qed.

Lemma Next_records_interruption_witness :
  let it :=
    {| reader.coll := sample.people; reader.tx := sample.idle;
       reader.err := None;
       reader.kvIter := {| reader.upcoming := [];
                           reader.stopped := Some (ErrForeign "cancelled") |} |} in
  reader.Next it
  = reader.Returned false None (reader.with_err it (ErrForeign "cancelled"))
  /\ reader.Interrupted (reader.with_err it (ErrForeign "cancelled"))
     = Some (ErrForeign "cancelled")
  /\ reader.tx (reader.with_err it (ErrForeign "cancelled")) = reader.tx it.
Proof.
  intros it. apply (Next_records_interruption it (ErrForeign "cancelled"));
    reflexivity.
Defined.

(** X16. A hit whose key does not decode under the index table is latched
    as an error: [Next] returns false with the decoder's error recorded, the
    hit consumed, and no read issued. *)
Theorem Next_records_decode_failure (it : reader.SecondaryIndexReaderImpl)
    (hit : reader.Row) (rest : list reader.event) (e : error) :
  reader.err it = None ->
  reader.stopped (reader.kvIter it) = None ->
  reader.upcoming (reader.kvIter it) = reader.Hit hit :: rest ->
  keys.FromBinary (schema.EncodedTableIndexName (reader.coll it))
    (reader.Key hit) = Err e ->
  exists it',
    reader.Next it = reader.Returned false None it'
    /\ reader.Interrupted it' = Some e
    /\ reader.upcoming (reader.kvIter it') = rest
    /\ reader.tx it' = reader.tx it.
Proof.
  intros Herr Hstop Hup Hkey.
  unfold reader.Next, reader.Iterator_Interrupted, reader.Iterator_Next.
  rewrite Herr, Hstop, Hup.
  cbn [reader.coll reader.tx reader.err reader.kvIter]. rewrite Hkey.
  eexists. split; [reflexivity|]. now repeat split.
Qed.

Lemma Next_records_decode_failure_witness :
  exists it',
    reader.Next (sample.reader_on [reader.Hit sample.strayRow] None)
    = reader.Returned false None it'
    /\ reader.Interrupted it' = Some subspace.errNotInSubspace
    /\ reader.upcoming (reader.kvIter it') = []
    /\ reader.tx it'
       = reader.tx (sample.reader_on [reader.Hit sample.strayRow] None).
Proof.
  apply (Next_records_decode_failure
           (sample.reader_on [reader.Hit sample.strayRow] None)
           sample.strayRow [] subspace.errNotInSubspace); reflexivity.
Defined.

(** X17. A failure of the point read is latched: when the key of the hit
    decodes to at least [PrimaryKeyPos] parts and the transaction has failed,
    [Next] returns false and [Interrupted] returns the transaction's error. *)
Theorem Next_records_read_failure (it : reader.SecondaryIndexReaderImpl)
    (hit : reader.Row) (rest : list reader.event) (indexKey : keys.tableKey)
    (e : error) :
  reader.err it = None ->
  reader.stopped (reader.kvIter it) = None ->
  reader.upcoming (reader.kvIter it) = reader.Hit hit :: rest ->
  keys.FromBinary (schema.EncodedTableIndexName (reader.coll it))
    (reader.Key hit) = Ok indexKey ->
  (reader.PrimaryKeyPos <= length (keys.IndexParts indexKey))%nat ->
  transaction.failed (reader.tx it) = Some e ->
  exists it',
    reader.Next it = reader.Returned false None it'
    /\ reader.Interrupted it' = Some e
    /\ reader.upcoming (reader.kvIter it') = rest.
Proof.
  intros Herr Hstop Hup Hkey Hlen Hfail.
  unfold reader.Next, reader.Iterator_Interrupted, reader.Iterator_Next.
  rewrite Herr, Hstop, Hup.
  cbn [reader.coll reader.tx reader.err reader.kvIter]. rewrite Hkey.
  destruct (Nat.leb_spec reader.PrimaryKeyPos (length (keys.IndexParts indexKey)));
    [|lia].
  unfold transaction.Read, transaction.record.
  cbn [transaction.failed transaction.store transaction.issued].
  rewrite Hfail. eexists. split; [reflexivity|]. now repeat split.
Qed.

Lemma Next_records_read_failure_witness :
  exists it',
    reader.Next (sample.reader_on [reader.Hit (sample.indexRow 30 2)]
                   (Some (ErrForeign "transaction timed out")))
    = reader.Returned false None it'
    /\ reader.Interrupted it' = Some (ErrForeign "transaction timed out")
    /\ reader.upcoming (reader.kvIter it') = [].
Proof.
  apply (Next_records_read_failure
           (sample.reader_on [reader.Hit (sample.indexRow 30 2)]
              (Some (ErrForeign "transaction timed out")))
           (sample.indexRow 30 2) []
           (keys.NewKey [x69]
              [tuple.EString [x73]; tuple.EString [x6b]; tuple.EString [x61];
               tuple.EInt 1; tuple.EInt 30; tuple.ENil; tuple.EInt 2])
           (ErrForeign "transaction timed out")); try reflexivity.
  unfold reader.PrimaryKeyPos.
  cbn [keys.IndexParts keys.NewKey keys.indexParts length]. lia.
Defined.

(** X18. An interruption is seen one call late: [Next] asks the underlying
    iterator whether it was interrupted before it advances it, so when the
    iterator fails while advancing, that call returns false with no error
    recorded, and it is the following call that latches the error. *)
Theorem Next_interruption_seen_late (it : reader.SecondaryIndexReaderImpl)
    (e : error) (rest : list reader.event) :
  reader.err it = None ->
  reader.stopped (reader.kvIter it) = None ->
  reader.upcoming (reader.kvIter it) = reader.Failure e :: rest ->
  exists it1 it2,
    reader.Next it = reader.Returned false None it1
    /\ reader.Interrupted it1 = None
    /\ reader.Next it1 = reader.Returned false None it2
    /\ reader.Interrupted it2 = Some e.
Proof.
  intros Herr Hstop Hup.
  unfold reader.Next at 1. unfold reader.Iterator_Interrupted, reader.Iterator_Next.
  rewrite Herr, Hstop, Hup.
  eexists. eexists. split; [reflexivity|]. split; [reflexivity|].
  unfold reader.Next, reader.Iterator_Interrupted.
  cbn [reader.err reader.kvIter reader.stopped].
  split; reflexivity.
Qed.

Lemma Next_interruption_seen_late_witness :
  exists it1 it2,
    reader.Next (sample.reader_on [reader.Failure (ErrForeign "cancelled")] None)
    = reader.Returned false None it1
    /\ reader.Interrupted it1 = None
    /\ reader.Next it1 = reader.Returned false None it2
    /\ reader.Interrupted it2 = Some (ErrForeign "cancelled").
Proof.
  apply (Next_interruption_seen_late
           (sample.reader_on [reader.Failure (ErrForeign "cancelled")] None)
           (ErrForeign "cancelled") []); reflexivity.
Defined.

(** X19. [Next] slices the parts of the index key at [PrimaryKeyPos]
    without checking their number: a hit whose key decodes to fewer than six
    parts makes it panic. *)
Theorem Next_panics_on_short_key (it : reader.SecondaryIndexReaderImpl)
    (hit : reader.Row) (rest : list reader.event) (indexKey : keys.tableKey) :
  reader.err it = None ->
  reader.stopped (reader.kvIter it) = None ->
  reader.upcoming (reader.kvIter it) = reader.Hit hit :: rest ->
  keys.FromBinary (schema.EncodedTableIndexName (reader.coll it))
    (reader.Key hit) = Ok indexKey ->
  (length (keys.IndexParts indexKey) < reader.PrimaryKeyPos)%nat ->
  reader.Next it = reader.Panicked.
Proof.
  intros Herr Hstop Hup Hkey Hlen.
  unfold reader.Next, reader.Iterator_Interrupted, reader.Iterator_Next.
  rewrite Herr, Hstop, Hup.
  cbn [reader.coll reader.tx reader.err reader.kvIter]. rewrite Hkey.
  destruct (Nat.leb_spec reader.PrimaryKeyPos (length (keys.IndexParts indexKey)));
    [lia | reflexivity].
Qed.

Lemma Next_panics_on_short_key_witness :
  reader.Next (sample.reader_on [reader.Hit sample.shortRow] None)
  = reader.Panicked.
Proof.
  apply (Next_panics_on_short_key
           (sample.reader_on [reader.Hit sample.shortRow] None)
           sample.shortRow []
           (keys.NewKey [x69] [tuple.EString [x73]; tuple.EInt 1; tuple.EInt 2]));
    try reflexivity.
  unfold reader.PrimaryKeyPos.
  cbn [keys.IndexParts keys.NewKey keys.indexParts length]. lia.
Defined.

(** X20. [Next] only reads: whatever it returns, the store of the
    transaction and the collection are as before, and at most one operation,
    a point read, has been issued. *)
Theorem Next_read_only (it it' : reader.SecondaryIndexReaderImpl)
    (more : bool) (row : option reader.Row) :
  reader.Next it = reader.Returned more row it' ->
  transaction.store (reader.tx it') = transaction.store (reader.tx it)
  /\ reader.coll it' = reader.coll it
  /\ (transaction.issued (reader.tx it') = transaction.issued (reader.tx it)
      \/ exists key,
           transaction.issued (reader.tx it')
           = transaction.issued (reader.tx it) ++ [transaction.OpRead key]).
Proof.
  unfold reader.Next, reader.Iterator_Interrupted, reader.Iterator_Next.
  destruct (reader.err it); [intros [= <- <- <-]; auto|].
  destruct (reader.stopped (reader.kvIter it)); [intros [= <- <- <-]; auto|].
  destruct (reader.upcoming (reader.kvIter it)) as [|[hit|e] rest];
    try (intros [= <- <- <-]; now auto).
  cbn [reader.coll reader.tx reader.err reader.kvIter].
  destruct (keys.FromBinary _ _) as [indexKey|e]; [|intros [= <- <- <-]; auto].
  destruct (_ <=? _)%nat; [|discriminate].
  destruct (transaction.Read _ _) as [[docIter|e] tx'] eqn:Eread;
    apply reader_more.Read_store in Eread as (Hs & _ & Hi).
  - destruct docIter; intros [= <- <- <-];
      cbn [reader.tx reader.coll]; (split; [exact Hs|]; split; [reflexivity|]);
      right; eauto.
  - intros [= <- <- <-]. cbn [reader.tx reader.coll].
    split; [exact Hs|]. split; [reflexivity|]. right; eauto.
Qed.

Lemma Next_read_only_witness :
  exists it',
    reader.Next sample.scan = reader.Returned false None it'
    /\ transaction.store (reader.tx it') = transaction.store (reader.tx sample.scan)
    /\ reader.coll it' = reader.coll sample.scan.
Proof.
  eexists. split; [reflexivity|].
  refine (let H := Next_read_only sample.scan _ false None eq_refl in
          conj (proj1 H) (proj1 (proj2 H))).
Defined.
